(** * ShopEasy service worker: caching strategies, lifecycle and control channel

    A shallow embedding of the service worker of the ShopEasy PWA (the
    [sw.js] revision that defines [APP_VERSION], [networkFirst],
    [cacheFirst], [imageCacheFirst] and [networkFirstWithCacheUpdate],
    together with the install listener of the earlier [src/sw.js]).

    The worker's asynchronous handlers are modelled as state transformers
    over a [World] that holds what the handlers can observe or change:
    the cache storage, the log of network fetches, the skip-waiting flag,
    the messages posted back to clients and the notifications shown. *)

From Stdlib Require Import String Ascii List Bool Arith Lia PrimFloat.
Import ListNotations.
Open Scope string_scope.
Open Scope list_scope.
Set Warnings "-register-all".

(** ** Strings as the handlers use them *)

(** [String.prototype.includes]. *)
Fixpoint includes (s needle : string) : bool :=
  String.prefix needle s ||
  match s with
  | EmptyString => false
  | String _ rest => includes rest needle
  end.

(** [String.prototype.startsWith]. *)
Definition startsWith (s p : string) : bool := String.prefix p s.

(** A regular expression of the shape [/<suffix>$/]: the text ends with
    the literal [suffix]. *)
Fixpoint endsWith (s suffix : string) : bool :=
  String.eqb s suffix ||
  match s with
  | EmptyString => false
  | String _ rest => endsWith rest suffix
  end.

(** [/\.(a|b|...)$/] as the disjunction of its alternatives. *)
Definition matches_extension (s : string) (exts : list string) : bool :=
  existsb (fun e => endsWith s ("." ++ e)%string) exts.

Definition dquote : string := String "034"%char EmptyString.
Definition newline : string := String "010"%char EmptyString.

(** ** JavaScript values carried by messages and push payloads *)

Inductive JsVal : Type :=
| JUndefined
| JNull
| JBool (b : bool)
| JNum (x : float)
| JStr (s : string)
| JArr (items : list JsVal)
| JObj (fields : list (string * JsVal)).

(** Truthiness, as [||] and [if] test it. *)
Definition truthy (v : JsVal) : bool :=
  match v with
  | JUndefined | JNull => false
  | JBool b => b
  | JNum x => negb (PrimFloat.is_zero x || PrimFloat.is_nan x)
  | JStr s => negb (String.eqb s "")
  | JArr _ | JObj _ => true
  end.

(** [a || b]. *)
Definition js_or (a b : JsVal) : JsVal := if truthy a then a else b.

Fixpoint assoc {A : Type} (k : string) (l : list (string * A)) : option A :=
  match l with
  | [] => None
  | (k', v) :: rest => if String.eqb k' k then Some v else assoc k rest
  end.

(** Errors a handler can raise. *)
Inductive Exn : Type :=
| NetworkError   (* the TypeError [fetch] rejects with *)
| SyntaxError    (* malformed JSON *)
| TypeError.     (* property read on [null] or [undefined], refused batch *)

(** Reading a property that is none of the built-in ones of the value:
    [null] and [undefined] throw, an object gives the last field of that
    name the payload defined, every other value gives [undefined]. *)
Definition get_prop (v : JsVal) (name : string) : Exn + JsVal :=
  match v with
  | JUndefined | JNull => inl TypeError
  | JObj fields =>
      match assoc name (rev fields) with
      | Some x => inr x
      | None => inr JUndefined
      end
  | _ => inr JUndefined
  end.

(** [v.action === lit] for a string literal. *)
Definition strict_eq_str (v : JsVal) (lit : string) : bool :=
  match v with
  | JStr s => String.eqb s lit
  | _ => false
  end.

(** ** Requests and responses *)

Record Request : Type := mkRequest {
  method : string;
  url : string;                 (* absolute, serialised *)
  accept : option string        (* [headers.get('Accept')], [None] for null *)
}.

Inductive ResponseType : Type :=
| Basic | Cors | Default | Opaque | OpaqueRedirect.

Record Response : Type := mkResponse {
  status : nat;
  rtype : ResponseType;
  content_type : option string;
  body : string
}.

(** [response.ok]. *)
Definition ok (r : Response) : bool :=
  ((200 <=? status r) && (status r <=? 299))%nat.

(** [new Response(body, { headers: { 'Content-Type': ct } })]. *)
Definition new_Response (b ct : string) : Response :=
  mkResponse 200 Default (Some ct) b.

(** ** The Cache API *)

(** The URL a cache entry is compared by: the request URL without its
    fragment, which the Cache API leaves out when it matches requests. *)
Fixpoint cache_key (u : string) : string :=
  match u with
  | EmptyString => EmptyString
  | String c rest =>
      if Ascii.eqb c "#"%char then EmptyString else String c (cache_key rest)
  end.

(** One named store: request URL (as [cache_key] gives it) to captured
    response, oldest first. *)
Definition Cache : Type := list (string * Response).

(** The cache storage: named stores in creation order. *)
Definition CacheStorage : Type := list (string * Cache).

Definition Cache_match (key : string) (c : Cache) : option Response :=
  assoc (cache_key key) c.

Definition Cache_remove (key : string) (c : Cache) : Cache :=
  filter (fun e => negb (String.eqb (fst e) (cache_key key))) c.

(** [cache.put]: the entry replaces any entry of the same request. *)
Definition Cache_put (key : string) (r : Response) (c : Cache) : Cache :=
  Cache_remove key c ++ [(cache_key key, r)].

(** [caches.keys()]. *)
Definition caches_keys (cs : CacheStorage) : list string := map fst cs.

(** [caches.has(name)]. *)
Definition caches_has (name : string) (cs : CacheStorage) : bool :=
  existsb (String.eqb name) (caches_keys cs).

(** The store [caches.open(name)] hands back, when it exists. *)
Definition caches_lookup (name : string) (cs : CacheStorage) : option Cache :=
  assoc name cs.

(** [caches.open(name)] creates the store when it is absent. *)
Definition caches_open (name : string) (cs : CacheStorage) : CacheStorage :=
  if caches_has name cs then cs else cs ++ [(name, [])].

(** [caches.delete(name)]. *)
Definition caches_delete (name : string) (cs : CacheStorage) : CacheStorage :=
  filter (fun e => negb (String.eqb (fst e) name)) cs.

(** [caches.match(request)]: the first store, in creation order, that holds
    the request answers. *)
Fixpoint caches_match (key : string) (cs : CacheStorage) : option Response :=
  match cs with
  | [] => None
  | (_, c) :: rest =>
      match Cache_match key c with
      | Some r => Some r
      | None => caches_match key rest
      end
  end.

(** Apply [f] to the store called [name]. *)
Fixpoint update_store (name : string) (f : Cache -> Cache) (cs : CacheStorage)
  : CacheStorage :=
  match cs with
  | [] => []
  | (n, c) :: rest =>
      if String.eqb n name then (n, f c) :: rest
      else (n, c) :: update_store name f rest
  end.

(** The host refuses to store a partial-content response: [cache.put]
    rejects for status 206 and writes nothing.  (It also refuses requests
    that are not http(s) GETs and responses with [Vary: *]; the request and
    response records carry neither, and the router only passes GETs on.) *)
Definition put_refused (r : Response) : bool := (status r =? 206)%nat.

(** The URLs whose requests [cache.put] stores: those of scheme http or
    https.  What a put leaves behind for an arbitrary request is stated
    for these. *)
Definition http_url (u : string) : bool :=
  startsWith u "http://" || startsWith u "https://".

(** ** The hosting environment *)

Record Host : Type := mkHost {
  resolve : string -> string;          (* a URL against the worker's location *)
  hostname_of : string -> string;      (* [new URL(u).hostname] *)
  network : Request -> option Response (* [None]: the fetch rejects *)
}.

Record Notification : Type := mkNotification {
  n_title : JsVal;
  n_body : JsVal;
  n_icon : string;
  n_badge : string;
  n_vibrate : list nat;
  n_data_url : JsVal
}.

Record World : Type := mkWorld {
  caches : CacheStorage;
  fetch_log : list string;     (* URL of every network fetch issued, oldest first *)
  skip_waiting : bool;         (* [self.skipWaiting()] was called *)
  claimed : bool;              (* [self.clients.claim()] was called *)
  posted : list JsVal;         (* messages posted to [event.source] *)
  shown : list Notification    (* notifications displayed *)
}.

Definition set_caches (f : CacheStorage -> CacheStorage) (w : World) : World :=
  mkWorld (f (caches w)) (fetch_log w) (skip_waiting w) (claimed w)
          (posted w) (shown w).

Definition log_fetches (us : list string) (w : World) : World :=
  mkWorld (caches w) (fetch_log w ++ us) (skip_waiting w) (claimed w)
          (posted w) (shown w).

Definition set_skip_waiting (w : World) : World :=
  mkWorld (caches w) (fetch_log w) true (claimed w) (posted w) (shown w).

Definition set_claimed (w : World) : World :=
  mkWorld (caches w) (fetch_log w) (skip_waiting w) true (posted w) (shown w).

Definition add_posted (m : JsVal) (w : World) : World :=
  mkWorld (caches w) (fetch_log w) (skip_waiting w) (claimed w)
          (posted w ++ [m]) (shown w).

Definition add_shown (n : Notification) (w : World) : World :=
  mkWorld (caches w) (fetch_log w) (skip_waiting w) (claimed w)
          (posted w) (shown w ++ [n]).

(** ** Asynchronous tasks: state and rejection *)

Inductive Outcome (A : Type) : Type :=
| Fulfilled (a : A)
| Rejected (e : Exn).
Arguments Fulfilled {A} a.
Arguments Rejected {A} e.

(** A task runs against the world; what it changed before it rejected
    stays changed. *)
Definition Task (A : Type) : Type := World -> Outcome A * World.

Definition ret {A : Type} (a : A) : Task A := fun w => (Fulfilled a, w).

Definition throw {A : Type} (e : Exn) : Task A := fun w => (Rejected e, w).

Definition bind {A B : Type} (t : Task A) (k : A -> Task B) : Task B :=
  fun w =>
    match t w with
    | (Fulfilled a, w') => k a w'
    | (Rejected e, w') => (Rejected e, w')
    end.

(** [try { body } catch (error) { handler }], and [promise.catch(handler)]. *)
Definition try_catch {A : Type} (body : Task A) (handler : Exn -> Task A)
  : Task A :=
  fun w =>
    match body w with
    | (Fulfilled a, w') => (Fulfilled a, w')
    | (Rejected e, w') => handler e w'
    end.

Declare Scope task_scope.
Delimit Scope task_scope with task.
Notation "x <- t ;; k" := (bind t (fun x => k))
  (at level 61, t at next level, right associativity) : task_scope.
Notation "t ;; k" := (bind t (fun _ => k))
  (at level 61, right associativity) : task_scope.
Open Scope task_scope.

(** A synchronous step that may throw. *)
Definition lift {A : Type} (r : Exn + A) : Task A :=
  match r with
  | inl e => throw e
  | inr a => ret a
  end.

Fixpoint for_each {A : Type} (f : A -> Task unit) (l : list A) : Task unit :=
  match l with
  | [] => ret tt
  | a :: rest => f a ;; for_each f rest
  end.

(** ** Host operations as tasks *)

(** [fetch(request)]: resolves with whatever response the network gives,
    error statuses included, and rejects only when the network fails. *)
Definition fetch (h : Host) (request : Request) : Task Response :=
  fun w =>
    (match network h request with
     | Some r => Fulfilled r
     | None => Rejected NetworkError
     end, log_fetches [url request] w).

Definition caches_open_t (name : string) : Task unit :=
  fun w => (Fulfilled tt, set_caches (caches_open name) w).

Definition caches_keys_t : Task (list string) :=
  fun w => (Fulfilled (caches_keys (caches w)), w).

Definition caches_delete_t (name : string) : Task unit :=
  fun w => (Fulfilled tt, set_caches (caches_delete name) w).

Definition caches_match_t (key : string) : Task (option Response) :=
  fun w => (Fulfilled (caches_match key (caches w)), w).

(** [cache.put(request, response.clone())] on the store opened as [name],
    not awaited: the write takes effect, and a refusal by the host is an
    unhandled rejection that the caller never sees. *)
Definition cache_put_t (name key : string) (r : Response) : Task unit :=
  fun w =>
    (Fulfilled tt,
     if put_refused r then w
     else set_caches (update_store name (Cache_put key r)) w).

(** The request [cache.addAll] builds for a URL string. *)
Definition asset_request (h : Host) (u : string) : Request :=
  mkRequest "GET" (resolve h u) None.

(** The responses [cache.addAll] collects: every one must arrive, be [ok]
    and not be partial content. *)
Fixpoint fetch_all (h : Host) (urls : list string)
  : option (list (string * Response)) :=
  match urls with
  | [] => Some []
  | u :: rest =>
      match network h (asset_request h u) with
      | Some r =>
          if ok r && negb (put_refused r) then
            match fetch_all h rest with
            | Some es => Some ((resolve h u, r) :: es)
            | None => None
            end
          else None
      | None => None
      end
  end.

Fixpoint has_duplicates (l : list string) : bool :=
  match l with
  | [] => false
  | x :: rest => existsb (String.eqb x) rest || has_duplicates rest
  end.

(** The cache keys of a batch of entries, and of a manifest. *)
Definition entry_keys (es : list (string * Response)) : list string :=
  map (fun e => cache_key (fst e)) es.

Definition manifest_keys (h : Host) (urls : list string) : list string :=
  map (fun u => cache_key (resolve h u)) urls.

Definition put_all (es : list (string * Response)) (c : Cache) : Cache :=
  fold_left (fun acc e => Cache_put (fst e) (snd e) acc) es c.

(** [cache.addAll(urls)] on the store opened as [name]: all requests are
    fetched, and the batch is written only when every response qualifies
    and no two requests coincide; otherwise it rejects and writes nothing. *)
Definition Cache_addAll (h : Host) (name : string) (urls : list string)
  : Task unit :=
  fun w =>
    let w' := log_fetches (map (resolve h) urls) w in
    match fetch_all h urls with
    | Some es =>
        if has_duplicates (entry_keys es) then (Rejected TypeError, w')
        else (Fulfilled tt, set_caches (update_store name (put_all es)) w')
    | None => (Rejected TypeError, w')
    end.

Definition skipWaiting : Task unit :=
  fun w => (Fulfilled tt, set_skip_waiting w).

Definition clients_claim : Task unit :=
  fun w => (Fulfilled tt, set_claimed w).

Definition postMessage (m : JsVal) : Task unit :=
  fun w => (Fulfilled tt, add_posted m w).

Definition showNotification (n : Notification) : Task unit :=
  fun w => (Fulfilled tt, add_shown n w).

(** ** The worker *)

Definition APP_VERSION : string := "1.0.1".

(** The template [`shopeasy-v${version}`]. *)
Definition static_store_name (version : string) : string :=
  ("shopeasy-v" ++ version)%string.

Definition CACHE_NAME : string := static_store_name APP_VERSION.

Definition STATIC_ASSETS : list string :=
  [ "/";
    "/index.html";
    "logo.png";
    "manifest.json";
    "https://cdnjs.cloudflare.com/ajax/libs/font-awesome/6.4.0/css/all.min.css";
    "https://www.gstatic.com/firebasejs/10.7.1/firebase-app.js";
    "https://www.gstatic.com/firebasejs/10.7.1/firebase-firestore.js" ].

Definition DYNAMIC_CACHE : string := "shopeasy-dynamic-v1".

(** *** Install and activate *)

(** The promise the install listener hands to [event.waitUntil]. *)
Definition on_install (h : Host) : Task unit :=
  try_catch
    (caches_open_t CACHE_NAME ;;
     Cache_addAll h CACHE_NAME STATIC_ASSETS ;;
     skipWaiting)
    (fun error => ret tt).

(** The promise the activate listener hands to [event.waitUntil]. *)
Definition on_activate : Task unit :=
  cacheNames <- caches_keys_t ;;
  for_each
    (fun cacheName =>
       if negb (String.eqb cacheName CACHE_NAME)
          && negb (String.eqb cacheName DYNAMIC_CACHE)
       then caches_delete_t cacheName
       else ret tt)
    cacheNames ;;
  clients_claim.

(** What the host makes of a worker once the install promise settles: a
    rejection discards it, a fulfilment makes it the waiting worker, which
    the skip-waiting flag sends on to activation at once. *)
Inductive WorkerState : Type :=
| Installing | Waiting | Activating | Active | Redundant.

Definition after_install (o : Outcome unit) (w : World) : WorkerState :=
  match o with
  | Rejected _ => Redundant
  | Fulfilled _ => if skip_waiting w then Activating else Waiting
  end.

(** *** Strategies *)

(** [request.headers.get('Accept')?.includes('text/html')]. *)
Definition accepts_html (request : Request) : bool :=
  match accept request with
  | Some a => includes a "text/html"
  | None => false
  end.

Definition networkFirst (h : Host) (request : Request)
  : Task (option Response) :=
  try_catch
    (networkResponse <- fetch h request ;;
     caches_open_t DYNAMIC_CACHE ;;
     cache_put_t DYNAMIC_CACHE (url request) networkResponse ;;
     ret (Some networkResponse))
    (fun error =>
       cachedResponse <- caches_match_t (url request) ;;
       match cachedResponse with
       | Some r => ret (Some r)
       | None =>
           if accepts_html request then caches_match_t (resolve h "/")
           else throw error
       end).

Definition cacheFirst (h : Host) (request : Request)
  : Task (option Response) :=
  cachedResponse <- caches_match_t (url request) ;;
  match cachedResponse with
  | Some r => ret (Some r)
  | None =>
      try_catch
        (networkResponse <- fetch h request ;;
         (if ok networkResponse then
            caches_open_t DYNAMIC_CACHE ;;
            cache_put_t DYNAMIC_CACHE (url request) networkResponse
          else ret tt) ;;
         ret (Some networkResponse))
        (fun error =>
           if endsWith (url request) ".css" then
             ret (Some (new_Response "" "text/css"))
           else if endsWith (url request) ".js" then
             ret (Some (new_Response
                          ("console.log(" ++ dquote ++ "Offline mode"
                             ++ dquote ++ ");")%string
                          "application/javascript"))
           else throw error)
  end.

Definition quoted (s : string) : string := (dquote ++ s ++ dquote)%string.

Definition placeholderSvg : string :=
  String.concat ""
    [ newline;
      "      <svg xmlns="; quoted "http://www.w3.org/2000/svg";
      " width="; quoted "200"; " height="; quoted "200";
      " viewBox="; quoted "0 0 200 200"; ">"; newline;
      "        <rect width="; quoted "100%"; " height="; quoted "100%";
      " fill="; quoted "#f0f0f0"; "/>"; newline;
      "        <text x="; quoted "50%"; " y="; quoted "50%";
      " text-anchor="; quoted "middle"; " dy="; quoted ".3em";
      " fill="; quoted "#999"; " font-family="; quoted "sans-serif";
      " font-size="; quoted "14"; ">"; newline;
      "          Image"; newline;
      "        </text>"; newline;
      "      </svg>"; newline;
      "    " ].

Definition imageCacheFirst (h : Host) (request : Request)
  : Task (option Response) :=
  cachedResponse <- caches_match_t (url request) ;;
  match cachedResponse with
  | Some r => ret (Some r)
  | None =>
      try_catch
        (networkResponse <- fetch h request ;;
         (if ok networkResponse then
            caches_open_t DYNAMIC_CACHE ;;
            cache_put_t DYNAMIC_CACHE (url request) networkResponse
          else ret tt) ;;
         ret (Some networkResponse))
        (fun error =>
           if includes (url request) "placeholder"
              || includes (url request) "postimg.cc"
           then caches_match_t (resolve h "logo.png")
           else ret (Some (new_Response placeholderSvg "image/svg+xml")))
  end.

Definition networkFirstWithCacheUpdate (h : Host) (request : Request)
  : Task (option Response) :=
  try_catch
    (networkResponse <- fetch h request ;;
     caches_open_t DYNAMIC_CACHE ;;
     cache_put_t DYNAMIC_CACHE (url request) networkResponse ;;
     ret (Some networkResponse))
    (fun error =>
       cachedResponse <- caches_match_t (url request) ;;
       match cachedResponse with
       | Some r => ret (Some r)
       | None =>
           if includes (url request) "firestore.googleapis.com" then
             ret (Some (new_Response "[]" "application/json"))
           else throw error
       end).

(** *** The fetch listener *)

Inductive Strategy : Type :=
| NetworkFirst
| CacheFirst
| ImageCacheFirst
| NetworkFirstWithCacheUpdate.

(** The branch the fetch listener takes: [None] when it returns without
    calling [event.respondWith]. *)
Definition fetch_route (h : Host) (request : Request) : option Strategy :=
  if negb (String.eqb (method request) "GET") then None
  else if accepts_html request then Some NetworkFirst
  else if matches_extension (url request) ["css"; "js"; "woff"; "woff2"]
  then Some CacheFirst
  else if matches_extension (url request)
            ["png"; "jpg"; "jpeg"; "gif"; "svg"; "webp"]
  then Some ImageCacheFirst
  else if includes (hostname_of h (url request)) "firestore.googleapis.com"
          || includes (hostname_of h (url request))
                      "firebasestorage.googleapis.com"
  then Some NetworkFirstWithCacheUpdate
  else Some NetworkFirst.

Definition run_strategy (h : Host) (s : Strategy) (request : Request)
  : Task (option Response) :=
  match s with
  | NetworkFirst => networkFirst h request
  | CacheFirst => cacheFirst h request
  | ImageCacheFirst => imageCacheFirst h request
  | NetworkFirstWithCacheUpdate => networkFirstWithCacheUpdate h request
  end.

(** The promise given to [event.respondWith], if the listener responds. *)
Definition on_fetch (h : Host) (request : Request)
  : option (Task (option Response)) :=
  match fetch_route h request with
  | None => None
  | Some s => Some (run_strategy h s request)
  end.

(** *** Control channel *)

Definition version_response : JsVal :=
  JObj [("action", JStr "versionResponse"); ("version", JStr APP_VERSION)].

Definition on_message (message : JsVal) : Task unit :=
  action <- lift (get_prop message "action") ;;
  (if strict_eq_str action "skipWaiting" then skipWaiting else ret tt) ;;
  action <- lift (get_prop message "action") ;;
  (if strict_eq_str action "CLEAR_CACHE" then
     cacheNames <- caches_keys_t ;;
     for_each caches_delete_t cacheNames
   else ret tt) ;;
  action <- lift (get_prop message "action") ;;
  (if strict_eq_str action "versionCheck" then postMessage version_response
   else ret tt).

(** *** Push delivery *)

(** [event.data] of a push event with a payload: what [.json()] gives. *)
Inductive PushMessageData : Type :=
| Malformed                 (* [.json()] throws a SyntaxError *)
| Parsed (value : JsVal).

Definition json (d : PushMessageData) : Task JsVal :=
  match d with
  | Malformed => throw SyntaxError
  | Parsed v => ret v
  end.

Definition on_push (event_data : option PushMessageData) : Task unit :=
  match event_data with
  | None => ret tt
  | Some d =>
      data <- json d ;;
      body_field <- lift (get_prop data "body") ;;
      url_field <- lift (get_prop data "url") ;;
      title_field <- lift (get_prop data "title") ;;
      showNotification
        (mkNotification
           (js_or title_field (JStr "ShopEasy"))
           (js_or body_field (JStr "New update from ShopEasy"))
           "logo.png" "logo.png" [100; 50; 100]
           (js_or url_field (JStr "/")))
  end.

(** ** The install listener of [src/sw.js] *)

Module SwJs.

Definition CACHE_NAME : string := "shopeasy-v1.0.1".

Definition STATIC_CACHE : list string :=
  [ "/"; "/index.html"; "logo.png"; "manifest.json" ].

Definition EXTERNAL_RESOURCES : list string :=
  [ "https://cdnjs.cloudflare.com/ajax/libs/font-awesome/6.4.0/css/all.min.css";
    "https://www.gstatic.com/firebasejs/10.7.1/firebase-app.js";
    "https://www.gstatic.com/firebasejs/10.7.1/firebase-firestore.js" ].

Definition on_install (h : Host) : Task unit :=
  caches_open_t CACHE_NAME ;;
  Cache_addAll h CACHE_NAME (STATIC_CACHE ++ EXTERNAL_RESOURCES) ;;
  skipWaiting.

End SwJs.

(** ** The router as the specification words it *)









(** What follows the [://] of an absolute URL. *)
Fixpoint after_scheme (u : string) : string :=
  match u with
  | EmptyString => EmptyString
  | String c rest =>
      if String.prefix "://" u
      then String.substring 3 (String.length u - 3) u
      else after_scheme rest
  end.

Fixpoint from_first_slash (s : string) : string :=
  match s with
  | EmptyString => EmptyString
  | String c rest =>
      if Ascii.eqb c "/"%char then s else from_first_slash rest
  end.

Fixpoint before_query_or_fragment (s : string) : string :=
  match s with
  | EmptyString => EmptyString
  | String c rest =>
      if Ascii.eqb c "?"%char || Ascii.eqb c "#"%char then EmptyString
      else String c (before_query_or_fragment rest)
  end.

(** The URL path of the specification's rules 3 and 4: the part of an
    absolute URL from the first slash after the authority up to the query
    or the fragment. *)
Definition spec_url_path (u : string) : string :=
  before_query_or_fragment (from_first_slash (after_scheme u)).



(** ** The activation sweep, as a function on the storage *)

Definition stale (name : string) : bool :=
  negb (String.eqb name CACHE_NAME) && negb (String.eqb name DYNAMIC_CACHE).

Definition sweep (names : list string) (cs : CacheStorage) : CacheStorage :=
  fold_left (fun acc n => if stale n then caches_delete n acc else acc) names cs.

(** ** What a manifest needs from the network *)

(** The network serves the asset with a status [cache.addAll] accepts. *)
Definition asset_available (h : Host) (u : string) : Prop :=
  exists r, network h (asset_request h u) = Some r
            /\ ok r = true /\ status r <> 206.

(** ** Repeated lookups *)

(** Run the same task [n] times in a row, collecting what each run gave. *)
Fixpoint repeat_task {A : Type} (n : nat) (t : Task A) (w : World)
  : list (Outcome A) * World :=
  match n with
  | O => ([], w)
  | S m =>
      let (o, w') := t w in
      let (os, w'') := repeat_task m t w' in
      (o :: os, w'')
  end.

(** Every entry of the dynamic store, if the store exists, satisfies [P]. *)
Definition dynamic_entries (P : Response -> Prop) (cs : CacheStorage) : Prop :=
  forall c, caches_lookup DYNAMIC_CACHE cs = Some c ->
            Forall (fun e => P (snd e)) c.

(** ** Sample environments *)

Definition shop_origin : string := "https://shopeasy.example".

Definition sample_resolve (u : string) : string :=
  if startsWith u "https://" then u
  else if startsWith u "/" then (shop_origin ++ u)%string
  else (shop_origin ++ "/" ++ u)%string.

Fixpoint until_slash (s : string) : string :=
  match s with
  | EmptyString => EmptyString
  | String c rest =>
      if Ascii.eqb c "/"%char then EmptyString else String c (until_slash rest)
  end.

Definition sample_hostname (u : string) : string :=
  until_slash (String.substring 8 (String.length u - 8) u).

Definition page_response : Response :=
  mkResponse 200 Basic (Some "text/html") "<!doctype html>".

Definition error_response : Response :=
  mkResponse 500 Basic (Some "text/html") "Internal Server Error".

(** Every request is answered with a 200. *)
Definition host_online : Host :=
  mkHost sample_resolve sample_hostname (fun _ => Some page_response).

(** No request gets through. *)
Definition host_offline : Host :=
  mkHost sample_resolve sample_hostname (fun _ => None).

(** The server answers every request with a 500. *)
Definition host_server_error : Host :=
  mkHost sample_resolve sample_hostname (fun _ => Some error_response).

(** Everything is served except [manifest.json]. *)
Definition host_missing_manifest : Host :=
  mkHost sample_resolve sample_hostname
    (fun r =>
       if String.eqb (url r) (sample_resolve "manifest.json") then None
       else Some page_response).

Definition empty_world : World := mkWorld [] [] false false [] [].

Definition style_url : string := "https://shopeasy.example/style.css".

Definition style_response : Response :=
  mkResponse 200 Basic (Some "text/css") "body{margin:0}".

(** A world whose dynamic store already holds the stylesheet. *)
Definition world_with_style : World :=
  mkWorld [(DYNAMIC_CACHE, [(style_url, style_response)])]
          [] false false [] [].

Definition get (u : string) (a : option string) : Request :=
  mkRequest "GET" u a.

(** A navigation to the cart page. *)
Definition cart_request : Request :=
  get "https://shopeasy.example/cart" (Some "text/html,application/xhtml+xml").

(** A listing read from the remote data store. *)
Definition products_request : Request :=
  get "https://firestore.googleapis.com/v1/projects/shopeasy/documents/products"
      (Some "application/json").

(** A product picture hosted on the external image service. *)
Definition product_image_request : Request :=
  get "https://i.postimg.cc/abc/shoe.png" (Some "image/*").

Definition clear_cache_message : JsVal :=
  JObj [("action", JStr "CLEAR_CACHE"); ("version", JStr "1.0.1")].

(** The world after a complete install followed by a [CLEAR_CACHE] message. *)
Definition cleared_world : World :=
  snd (on_message clear_cache_message (snd (on_install host_online empty_world))).

(** ** Notification clicks *)

Inductive ClientEffect : Type :=
| CloseNotification
| FocusClient (index : nat)
| OpenWindow (target : JsVal).

(** The object the push listener attaches to a notification:
    [data: { url: ... }]. *)
Definition notification_data (n : Notification) : JsVal :=
  JObj [("url", n_data_url n)].

(** The loop over [clientList]: the position of the first window whose URL
    is strictly equal to [event.notification.data.url], which is read anew
    for every window. *)
Fixpoint first_matching_client
         (data : JsVal) (clientList : list string) (index : nat)
  : Exn + option nat :=
  match clientList with
  | [] => inr None
  | client_url :: rest =>
      match get_prop data "url" with
      | inl e => inl e
      | inr target =>
          if strict_eq_str target client_url then inr (Some index)
          else first_matching_client data rest (S index)
      end
  end.

(** The notification-click listener, given [event.notification.data] and
    the URLs of the open windows ([clients.matchAll({ type: 'window' })],
    all of which can be focused): what it does, in order, and how the
    promise given to [waitUntil] settles. *)
Definition on_notificationclick (data : JsVal) (clientList : list string)
  : list ClientEffect * Outcome unit :=
  match first_matching_client data clientList 0 with
  | inl e => ([CloseNotification], Rejected e)
  | inr (Some index) => ([CloseNotification; FocusClient index], Fulfilled tt)
  | inr None =>
      match get_prop data "url" with
      | inl e => ([CloseNotification], Rejected e)
      | inr target => ([CloseNotification; OpenWindow target], Fulfilled tt)
      end
  end.

(** ** Deleting stores by name *)

(** What a [Promise.all] of conditional [caches.delete] calls leaves. *)
Definition sweep_by (doomed : string -> bool) (names : list string)
           (cs : CacheStorage) : CacheStorage :=
  fold_left (fun acc n => if doomed n then caches_delete n acc else acc)
            names cs.

(** [response.type === 'basic']. *)
Definition is_basic (t : ResponseType) : bool :=
  match t with
  | Basic => true
  | _ => false
  end.

(** ** The first revision of the worker ([shopeasy-v3]) *)

Module V3.

Definition CACHE_NAME : string := "shopeasy-v3".

Definition urlsToCache : list string :=
  [ "./";
    "./index.html";
    "logo.png";
    "https://cdnjs.cloudflare.com/ajax/libs/font-awesome/6.4.0/css/all.min.css" ].

Definition on_install (h : Host) : Task unit :=
  caches_open_t CACHE_NAME ;;
  Cache_addAll h CACHE_NAME urlsToCache ;;
  skipWaiting.

Definition on_activate : Task unit :=
  cacheNames <- caches_keys_t ;;
  for_each
    (fun cache =>
       if negb (String.eqb cache CACHE_NAME) then caches_delete_t cache
       else ret tt)
    cacheNames ;;
  clients_claim.

(** The promise given to [event.respondWith]. *)
Definition cache_then_network (h : Host) (request : Request)
  : Task (option Response) :=
  cached <- caches_match_t (url request) ;;
  match cached with
  | Some r => ret (Some r)
  | None =>
      try_catch
        (response <- fetch h request ;;
         if negb (status response =? 200)%nat
            || negb (is_basic (rtype response))
         then ret (Some response)
         else
           caches_open_t CACHE_NAME ;;
           cache_put_t CACHE_NAME (url request) response ;;
           ret (Some response))
        (fun _ =>
           accept_header <-
             lift (match accept request with
                   | Some a => inr a
                   | None => inl TypeError
                   end) ;;
           if includes accept_header "text/html"
           then caches_match_t (resolve h "./")
           else ret None)
  end.

(** What the fetch listener does with a request. *)
Inductive Interception : Type :=
| NotIntercepted
| FetchedAndDropped (t : Task Response)   (* [return fetch(event.request)] *)
| Responds (t : Task (option Response)).

Definition on_fetch (h : Host) (request : Request) : Interception :=
  if negb (String.eqb (method request) "GET")
     || startsWith (url request) "chrome-extension://"
  then NotIntercepted
  else if includes (url request) "firebase"
          || includes (url request) "googleapis.com"
          || includes (url request) "gstatic.com"
  then FetchedAndDropped (fetch h request)
  else Responds (cache_then_network h request).

End V3.

(** ** The fetch and message listeners of [src/sw.js] *)

Module SwJsListeners.

Definition DYNAMIC_CACHE : string := "shopeasy-dynamic-v1".

(** HTML pages: network first, then cache. *)
Definition html_branch (h : Host) (request : Request) : Task (option Response) :=
  try_catch
    (response <- fetch h request ;;
     caches_open_t DYNAMIC_CACHE ;;
     cache_put_t DYNAMIC_CACHE (url request) response ;;
     ret (Some response))
    (fun _ =>
       cachedResponse <- caches_match_t (url request) ;;
       match cachedResponse with
       | Some r => ret (Some r)
       | None => caches_match_t (resolve h "/")
       end).

(** CSS, JS and images: cache first, then network. *)
Definition asset_branch (h : Host) (request : Request) : Task (option Response) :=
  cachedResponse <- caches_match_t (url request) ;;
  match cachedResponse with
  | Some r => ret (Some r)
  | None =>
      try_catch
        (response <- fetch h request ;;
         if negb (status response =? 200)%nat
            || negb (is_basic (rtype response))
         then ret (Some response)
         else
           caches_open_t DYNAMIC_CACHE ;;
           cache_put_t DYNAMIC_CACHE (url request) response ;;
           ret (Some response))
        (fun error =>
           if matches_extension (url request) ["png"; "jpg"; "jpeg"; "gif"]
           then caches_match_t (resolve h "logo.png")
           else ret None)
  end.

(** Firebase data: the cached response at once, the cache refreshed from
    the network either way. *)
Definition firebase_branch (h : Host) (request : Request)
  : Task (option Response) :=
  cachedResponse <- caches_match_t (url request) ;;
  fetched <-
    try_catch
      (networkResponse <- fetch h request ;;
       caches_open_t DYNAMIC_CACHE ;;
       cache_put_t DYNAMIC_CACHE (url request) networkResponse ;;
       ret (Some networkResponse))
      (fun _ => ret None) ;;
  ret (match cachedResponse with
       | Some r => Some r
       | None => fetched
       end).

(** The promise given to [event.respondWith], if the listener responds;
    [origin] is [self.location.origin]. *)
Definition on_fetch (h : Host) (origin : string) (request : Request)
  : option (Task (option Response)) :=
  if negb (startsWith (url request) origin)
     || negb (String.eqb (method request) "GET")
  then None
  else if accepts_html request then Some (html_branch h request)
  else if matches_extension (url request)
            ["css"; "js"; "png"; "jpg"; "jpeg"; "gif"; "svg"]
  then Some (asset_branch h request)
  else if includes (hostname_of h (url request)) "firestore.googleapis.com"
          || includes (hostname_of h (url request))
                      "firebasestorage.googleapis.com"
  then Some (firebase_branch h request)
  else None.

(** [event.data && event.data.action === lit]. *)
Definition data_action_is (data : JsVal) (lit : string) : Task bool :=
  if truthy data then
    action <- lift (get_prop data "action") ;;
    ret (strict_eq_str action lit)
  else ret false.

Definition on_message (data : JsVal) : Task unit :=
  clear <- data_action_is data "CLEAR_CACHE" ;;
  (if clear then
     cacheNames <- caches_keys_t ;;
     for_each caches_delete_t cacheNames
   else ret tt) ;;
  skip <- data_action_is data "skipWaiting" ;;
  (if skip then skipWaiting else ret tt).

End SwJsListeners.

(** ** Further sample data *)

Definition fresh_page_response : Response :=
  mkResponse 200 Basic (Some "text/html") "<!doctype html><title>new</title>".

(** The network answers every request with the fresh page. *)
Definition host_fresh : Host :=
  mkHost sample_resolve sample_hostname (fun _ => Some fresh_page_response).

Definition root_request : Request :=
  get "https://shopeasy.example/" (Some "text/html").

(** A world whose static store holds an older copy of the root document. *)
Definition world_with_old_root : World :=
  mkWorld [(CACHE_NAME, [("https://shopeasy.example/", page_response)])]
          [] false false [] [].

Definition font_request : Request :=
  get "https://shopeasy.example/fonts/inter.woff2" (Some "font/woff2").

(** A stylesheet requested with a version in its query string. *)
Definition versioned_style_request : Request :=
  get "https://shopeasy.example/style.css?v=2" (Some "text/css,*/*;q=0.1").

Definition sale_payload : JsVal :=
  JObj [("title", JStr "Sale"); ("url", JStr "https://shopeasy.example/deals")].

(** * Properties *)

(** ** The model on concrete inputs *)

Example includes_inner : includes "text/plain,text/html;q=0.9" "text/html" = true.
Proof. reflexivity. Qed.

Example includes_absent : includes "image/png" "text/html" = false.
Proof. reflexivity. Qed.

Example extension_at_end :
  matches_extension "https://shopeasy.example/app.js" ["css"; "js"] = true.
Proof. reflexivity. Qed.

Example extension_before_query :
  matches_extension "https://shopeasy.example/app.js?v=2" ["css"; "js"] = false.
Proof. reflexivity. Qed.

Example cache_key_drops_fragment :
  cache_key "https://shopeasy.example/style.css?v=2#top"
  = "https://shopeasy.example/style.css?v=2".
Proof. reflexivity. Qed.

Example fragment_request_hits_stored_entry :
  cacheFirst host_offline
             (get "https://shopeasy.example/style.css#top" None)
             world_with_style
  = (Fulfilled (Some style_response), world_with_style).
Proof. reflexivity. Qed.

Example spec_url_path_of_versioned_style :
  spec_url_path "https://shopeasy.example/style.css?v=2#top" = "/style.css".
Proof. reflexivity. Qed.

Example route_versioned_stylesheet :
  fetch_route host_online versioned_style_request = Some NetworkFirst.
Proof. reflexivity. Qed.

Example route_post :
  fetch_route host_online (mkRequest "POST" "https://shopeasy.example/order" None)
  = None.
Proof. reflexivity. Qed.

Example route_navigation :
  fetch_route host_online cart_request = Some NetworkFirst.
Proof. reflexivity. Qed.

Example route_stylesheet :
  fetch_route host_online (get style_url (Some "text/css,*/*;q=0.1"))
  = Some CacheFirst.
Proof. reflexivity. Qed.

Example route_html_beats_extension :
  fetch_route host_online (get style_url (Some "text/html")) = Some NetworkFirst.
Proof. reflexivity. Qed.

Example route_picture :
  fetch_route host_online product_image_request = Some ImageCacheFirst.
Proof. reflexivity. Qed.

Example route_data_store :
  fetch_route host_online products_request = Some NetworkFirstWithCacheUpdate.
Proof. reflexivity. Qed.

Example route_default :
  fetch_route host_online (get "https://shopeasy.example/api/cart" None)
  = Some NetworkFirst.
Proof. reflexivity. Qed.

Example install_online_stores_manifest :
  map (fun e => (fst e, map fst (snd e)))
      (caches (snd (on_install host_online empty_world)))
  = [(CACHE_NAME, map sample_resolve STATIC_ASSETS)].
Proof. vm_compute. reflexivity. Qed.

Example activate_sweeps :
  caches_keys
    (caches (snd (on_activate
                    (mkWorld [("shopeasy-v3", []); (CACHE_NAME, []);
                              (DYNAMIC_CACHE, [(style_url, style_response)]);
                              ("shopeasy-v1.0.0", [])]
                             [] false false [] []))))
  = [CACHE_NAME; DYNAMIC_CACHE].
Proof. vm_compute. reflexivity. Qed.

Example push_with_url :
  shown (snd (on_push (Some (Parsed (JObj [("title", JStr "Sale");
                                           ("url", JStr "/deals")])))
                      empty_world))
  = [mkNotification (JStr "Sale") (JStr "New update from ShopEasy")
                    "logo.png" "logo.png" [100; 50; 100] (JStr "/deals")].
Proof. reflexivity. Qed.

Example push_number_zero_title_falls_back :
  n_title (hd (mkNotification JNull JNull "" "" [] JNull)
              (shown (snd (on_push (Some (Parsed (JObj [("title", JNum 0%float)])))
                                   empty_world))))
  = JStr "ShopEasy".
Proof. vm_compute. reflexivity. Qed.

(** ** Substrings *)

Lemma string_app_assoc (a b c : string) :
  ((a ++ b) ++ c)%string = (a ++ (b ++ c))%string.
Proof.
  induction a as [| x a IH]; [reflexivity |].
  cbn [String.append]. now rewrite IH.
Qed.

Lemma prefix_spec (n s : string) :
  String.prefix n s = true <-> exists q, s = (n ++ q)%string.
Proof.
  revert s. induction n as [| a n IH]; intros s.
  - split; [intros _; now exists s | intros _; now destruct s].
  - destruct s as [| b s]; cbn [String.prefix].
    + split; [discriminate | intros [q Hq]; discriminate Hq].
    + destruct (Ascii.ascii_dec a b) as [-> | Hab].
      * rewrite IH. split; intros [q Hq]; exists q.
        -- cbn [String.append]. now rewrite Hq.
        -- cbn [String.append] in Hq. now inversion Hq.
      * split; [discriminate |].
        intros [q Hq]. cbn [String.append] in Hq. inversion Hq. congruence.
Qed.

Lemma includes_spec (s n : string) :
  includes s n = true <-> exists p q, s = (p ++ n ++ q)%string.
Proof.
  split.
  - induction s as [| c s IH]; cbn [includes]; rewrite orb_true_iff.
    + intros [Hp | Hf]; [| discriminate].
      apply prefix_spec in Hp. destruct Hp as [q Hq]. now exists EmptyString, q.
    + intros [Hp | Hin].
      * apply prefix_spec in Hp. destruct Hp as [q Hq]. now exists EmptyString, q.
      * destruct (IH Hin) as [p [q Hq]]. exists (String c p), q.
        cbn [String.append]. now rewrite Hq.
  - intros [p [q Hs]]. revert s Hs.
    induction p as [| c p IH]; intros s Hs.
    + cbn [String.append] in Hs.
      assert (Hp : String.prefix n s = true) by (apply prefix_spec; now exists q).
      destruct s; cbn [includes]; now rewrite Hp.
    + cbn [String.append] in Hs. subst s. cbn [includes].
      rewrite (IH _ eq_refl). apply orb_true_r.
Qed.

Lemma includes_trans (s m n : string) :
  includes s m = true -> includes m n = true -> includes s n = true.
Proof.
  rewrite !includes_spec. intros [p [q Hs]] [p' [q' Hm]].
  exists (p ++ p')%string, (q' ++ q)%string.
  rewrite Hs, Hm. now rewrite !string_app_assoc.
Qed.





(** ** Router *)





(** ** Activation *)

Lemma stale_false_iff (name : string) :
  stale name = false <-> name = CACHE_NAME \/ name = DYNAMIC_CACHE.
Proof.
  unfold stale.
  destruct (String.eqb_spec name CACHE_NAME) as [E1 | N1];
    destruct (String.eqb_spec name DYNAMIC_CACHE) as [E2 | N2];
    cbn [negb andb]; split; intros H; auto; try discriminate.
  destruct H; contradiction.
Qed.

Lemma In_caches_delete (e : string * Cache) (n : string) (cs : CacheStorage) :
  In e (caches_delete n cs) <-> In e cs /\ fst e <> n.
Proof.
  unfold caches_delete. rewrite filter_In.
  destruct (String.eqb_spec (fst e) n); cbn [negb]; intuition congruence.
Qed.

Lemma assoc_filter_other {A : Type} (name n : string) (l : list (string * A)) :
  name <> n ->
  assoc name (filter (fun e => negb (String.eqb (fst e) n)) l) = assoc name l.
Proof.
  intros Hne. induction l as [| [k v] l IH]; [reflexivity |].
  cbn [filter fst assoc].
  destruct (String.eqb_spec k n) as [-> | Hk]; cbn [negb].
  - destruct (String.eqb_spec n name) as [-> | _]; [contradiction | exact IH].
  - cbn [assoc]. destruct (String.eqb k name); [reflexivity | exact IH].
Qed.

Lemma In_sweep (names : list string) (cs : CacheStorage) (e : string * Cache) :
  In e (sweep names cs)
  <-> In e cs /\ (In (fst e) names -> stale (fst e) = false).
Proof.
  revert cs. induction names as [| n names IH]; intros cs.
  - cbn. tauto.
  - change (sweep (n :: names) cs)
      with (sweep names (if stale n then caches_delete n cs else cs)).
    rewrite IH. cbn [In].
    destruct (stale n) eqn:Hn.
    + rewrite In_caches_delete. split.
      * intros [[Hin Hne] Hrest]. split; [exact Hin |].
        intros [-> | Hin']; [contradiction | auto].
      * intros [Hin Hrest]. repeat split; auto.
        intros Heq. assert (Hf : stale (fst e) = false) by (apply Hrest; now left).
        rewrite Heq in Hf. congruence.
    + split.
      * intros [Hin Hrest]. split; [exact Hin |].
        intros [<- | Hin']; auto.
      * intros [Hin Hrest]. split; auto.
Qed.

Lemma lookup_sweep (name : string) (names : list string) (cs : CacheStorage) :
  stale name = false ->
  caches_lookup name (sweep names cs) = caches_lookup name cs.
Proof.
  intros Hkeep. revert cs. induction names as [| n names IH]; intros cs.
  - reflexivity.
  - change (sweep (n :: names) cs)
      with (sweep names (if stale n then caches_delete n cs else cs)).
    rewrite IH. destruct (stale n) eqn:Hn; [| reflexivity].
    unfold caches_lookup, caches_delete. apply assoc_filter_other.
    intros ->. congruence.
Qed.

Lemma for_each_sweep (names : list string) (w : World) :
  exists w',
    for_each (fun cacheName =>
                if negb (String.eqb cacheName CACHE_NAME)
                   && negb (String.eqb cacheName DYNAMIC_CACHE)
                then caches_delete_t cacheName
                else ret tt) names w = (Fulfilled tt, w')
    /\ caches w' = sweep names (caches w).
Proof.
  revert w. induction names as [| n names IH]; intros w.
  - exists w. split; reflexivity.
  - cbn [for_each]. unfold bind at 1.
    change (sweep (n :: names) (caches w))
      with (sweep names (if stale n then caches_delete n (caches w)
                         else caches w)).
    change (negb (String.eqb n CACHE_NAME) && negb (String.eqb n DYNAMIC_CACHE))
      with (stale n).
    destruct (stale n).
    + unfold caches_delete_t.
      destruct (IH (set_caches (caches_delete n) w)) as [w' [Hrun Hc]].
      exists w'. split; [exact Hrun | exact Hc].
    + unfold ret at 1. exact (IH w).
Qed.

Lemma static_store_name_stale (version : string) :
  version <> APP_VERSION -> stale (static_store_name version) = true.
Proof.
  intros Hv. unfold stale.
  destruct (String.eqb_spec (static_store_name version) CACHE_NAME) as [E | _].
  - exfalso. apply Hv. unfold CACHE_NAME, static_store_name in E.
    cbn in E. now inversion E.
  - destruct (String.eqb_spec (static_store_name version) DYNAMIC_CACHE)
      as [E | _]; [| reflexivity].
    unfold static_store_name, DYNAMIC_CACHE in E. cbn in E. discriminate E.
Qed.

(** C4. Activation fulfils and leaves exactly the stores that were there
    and are called [CACHE_NAME] or [DYNAMIC_CACHE]: no store of another
    version's static generation remains, and the dynamic store (and the
    current static store) is found afterwards with the entries it had. *)
Theorem activate_removes_stale_stores (w : World) :
  exists w',
    on_activate w = (Fulfilled tt, w')
    /\ (forall e, In e (caches w')
                  <-> In e (caches w)
                      /\ (fst e = CACHE_NAME \/ fst e = DYNAMIC_CACHE))
    /\ (forall name, In name (caches_keys (caches w')) ->
                     name = CACHE_NAME \/ name = DYNAMIC_CACHE)
    /\ (forall version, version <> APP_VERSION ->
                        ~ In (static_store_name version)
                             (caches_keys (caches w')))
    /\ caches_lookup DYNAMIC_CACHE (caches w')
       = caches_lookup DYNAMIC_CACHE (caches w)
    /\ caches_lookup CACHE_NAME (caches w')
       = caches_lookup CACHE_NAME (caches w).
Proof.
  destruct (for_each_sweep (caches_keys (caches w)) w) as [w1 [Hrun Hc]].
  exists (set_claimed w1).
  assert (Hentries : forall e, In e (caches w1)
            <-> In e (caches w) /\ (fst e = CACHE_NAME \/ fst e = DYNAMIC_CACHE)).
  { intros e. rewrite Hc, In_sweep, <- stale_false_iff. split.
    - intros [Hin Hk]. split; [exact Hin |]. apply Hk.
      unfold caches_keys. now apply in_map.
    - intros [Hin Hk]. split; auto. }
  assert (Hkeys : forall name, In name (caches_keys (caches w1)) ->
            name = CACHE_NAME \/ name = DYNAMIC_CACHE).
  { intros name Hin. unfold caches_keys in Hin.
    apply in_map_iff in Hin. destruct Hin as [e [<- Hin]].
    now apply Hentries in Hin. }
  split.
  { unfold on_activate, bind, caches_keys_t. rewrite Hrun. reflexivity. }
  cbn [set_claimed caches].
  split; [exact Hentries |].
  split; [exact Hkeys |].
  split.
  { intros version Hv Hin. apply Hkeys in Hin.
    apply stale_false_iff in Hin.
    rewrite (static_store_name_stale version Hv) in Hin. discriminate. }
  split; rewrite Hc; apply lookup_sweep; apply stale_false_iff; auto.
Qed.

(** ** Cache-First *)

Lemma cacheFirst_hit (h : Host) (request : Request) (w : World) (r : Response) :
  caches_match (url request) (caches w) = Some r ->
  cacheFirst h request w = (Fulfilled (Some r), w).
Proof.
  intros Hhit. unfold cacheFirst, bind, caches_match_t.
  rewrite Hhit. reflexivity.
Qed.

(** C5. When some store already answers the request, Cache-First returns
    the stored response and changes nothing: however many times the lookup
    is repeated, each run gives the stored response, the world is the one
    before, and the log of network fetches has not grown. *)
Theorem cacheFirst_hit_never_fetches
  (h : Host) (request : Request) (w : World) (r : Response) :
  caches_match (url request) (caches w) = Some r ->
  forall n,
    repeat_task n (cacheFirst h request) w
    = (repeat (Fulfilled (Some r)) n, w)
    /\ fetch_log (snd (repeat_task n (cacheFirst h request) w)) = fetch_log w.
Proof.
  intros Hhit n.
  assert (E : repeat_task n (cacheFirst h request) w
              = (repeat (Fulfilled (Some r)) n, w)).
  { induction n as [| n IH]; [reflexivity |].
    cbn [repeat_task repeat].
    rewrite (cacheFirst_hit h request w r Hhit), IH. reflexivity. }
  split; [exact E | now rewrite E].
Qed.

Lemma cacheFirst_hit_never_fetches_witness :
  repeat_task 3 (cacheFirst host_offline (get style_url None)) world_with_style
  = (repeat (Fulfilled (Some style_response)) 3, world_with_style)
  /\ fetch_log (snd (repeat_task 3 (cacheFirst host_offline (get style_url None))
                                 world_with_style))
     = fetch_log world_with_style.
Proof.
  apply (cacheFirst_hit_never_fetches host_offline (get style_url None)
           world_with_style style_response).
  reflexivity.
Defined.


Lemma cacheFirst_miss_offline (h : Host) (request : Request) (w : World) :
  caches_match (url request) (caches w) = None ->
  network h request = None ->
  cacheFirst h request w =
  ((if endsWith (url request) ".css" then
      Fulfilled (Some (new_Response "" "text/css"))
    else if endsWith (url request) ".js" then
      Fulfilled (Some (new_Response
                         ("console.log(" ++ dquote ++ "Offline mode"
                            ++ dquote ++ ");")%string
                         "application/javascript"))
    else Rejected NetworkError),
   log_fetches [url request] w).
Proof.
  intros Hmiss Hnet.
  unfold cacheFirst, bind at 1, caches_match_t. rewrite Hmiss.
  unfold try_catch, bind at 1, fetch. rewrite Hnet.
  destruct (endsWith (url request) ".css"); [reflexivity |].
  destruct (endsWith (url request) ".js"); reflexivity.
Qed.




(** ** Control channel *)

(** C9 as stated fails: a message whose action is the literal
    [version-query] gets no answer, and the answer to the action the
    listener does recognise is not tagged [version-response]. *)
Lemma version_query_literal_unanswered :
  on_message (JObj [("action", JStr "version-query")]) empty_world
  = (Fulfilled tt, empty_world)
  /\ posted (snd (on_message (JObj [("action", JStr "versionCheck")])
                            empty_world))
     <> [JObj [("action", JStr "version-response");
               ("version", JStr APP_VERSION)]].
Proof.
  split; [reflexivity |].
  vm_compute. intros H. discriminate H.
Qed.

(** C9, amended. A message whose [action] is [versionCheck] makes the
    listener post exactly one message back to its source, the object with
    [action] equal to [versionResponse] and [version] equal to
    [APP_VERSION], and changes nothing else. *)
Theorem version_check_posts_version_response (message : JsVal) (w : World) :
  get_prop message "action" = inr (JStr "versionCheck") ->
  on_message message w
  = (Fulfilled tt,
     add_posted (JObj [("action", JStr "versionResponse");
                       ("version", JStr APP_VERSION)]) w)
  /\ APP_VERSION = "1.0.1"
  /\ CACHE_NAME = ("shopeasy-v" ++ APP_VERSION)%string.
Proof.
  intros Haction. split; [| split; reflexivity].
  unfold on_message, bind, lift. rewrite Haction. reflexivity.
Qed.

Lemma version_check_posts_version_response_witness :
  on_message (JObj [("action", JStr "versionCheck"); ("version", JStr "1.0.0")])
             empty_world
  = (Fulfilled tt,
     add_posted (JObj [("action", JStr "versionResponse");
                       ("version", JStr APP_VERSION)]) empty_world)
  /\ APP_VERSION = "1.0.1"
  /\ CACHE_NAME = ("shopeasy-v" ++ APP_VERSION)%string.
Proof.
  apply (version_check_posts_version_response
           (JObj [("action", JStr "versionCheck"); ("version", JStr "1.0.0")])
           empty_world).
  reflexivity.
Defined.

(** ** Push delivery *)

Lemma get_prop_total (v : JsVal) (name : string) :
  v <> JNull -> v <> JUndefined -> exists x, get_prop v name = inr x.
Proof.
  intros Hn Hu. destruct v; try contradiction; cbn [get_prop];
    try (eexists; reflexivity).
  destruct (assoc name (rev fields)); eexists; reflexivity.
Qed.

(** C8 as stated fails: a payload that does not parse, and one that parses
    to [null], make the push listener throw. *)
Lemma push_bad_payload_throws :
  on_push (Some Malformed) empty_world = (Rejected SyntaxError, empty_world)
  /\ on_push (Some (Parsed JNull)) empty_world
     = (Rejected TypeError, empty_world).
Proof. split; reflexivity. Qed.

(** C8, amended. A push without payload is ignored.  A payload that does
    not parse, or that parses to a value whose fields cannot be read, makes
    the listener throw with nothing displayed.  Any other payload displays
    one notification whose associated data carries the payload's [url], or
    the root path when the payload gives none; title and body fall back to
    the fixed texts in the same way. *)
Theorem push_displays_or_throws (w : World) :
  on_push None w = (Fulfilled tt, w)
  /\ on_push (Some Malformed) w = (Rejected SyntaxError, w)
  /\ (forall v, v = JNull \/ v = JUndefined ->
                on_push (Some (Parsed v)) w = (Rejected TypeError, w))
  /\ (forall v, v <> JNull -> v <> JUndefined ->
        exists title body_ target,
          get_prop v "title" = inr title
          /\ get_prop v "body" = inr body_
          /\ get_prop v "url" = inr target
          /\ on_push (Some (Parsed v)) w
             = (Fulfilled tt,
                add_shown
                  (mkNotification
                     (js_or title (JStr "ShopEasy"))
                     (js_or body_ (JStr "New update from ShopEasy"))
                     "logo.png" "logo.png" [100; 50; 100]
                     (js_or target (JStr "/"))) w)).
Proof.
  split; [reflexivity |].
  split; [reflexivity |].
  split.
  - intros v [-> | ->]; reflexivity.
  - intros v Hn Hu.
    destruct (get_prop_total v "title" Hn Hu) as [t Ht].
    destruct (get_prop_total v "body" Hn Hu) as [b Hb].
    destruct (get_prop_total v "url" Hn Hu) as [u Hu'].
    exists t, b, u. repeat split; auto.
    unfold on_push, json, bind, ret, lift. rewrite Hb, Hu', Ht. reflexivity.
Qed.

(** ** The cache storage *)

Lemma assoc_app {A : Type} (k : string) (l1 l2 : list (string * A)) :
  assoc k (l1 ++ l2)
  = match assoc k l1 with
    | Some v => Some v
    | None => assoc k l2
    end.
Proof.
  induction l1 as [| [k' v] l1 IH]; [reflexivity |].
  cbn [app assoc]. destruct (String.eqb k' k); [reflexivity | exact IH].
Qed.

Lemma assoc_filter_same {A : Type} (k : string) (l : list (string * A)) :
  assoc k (filter (fun e => negb (String.eqb (fst e) k)) l) = None.
Proof.
  induction l as [| [k' v] l IH]; [reflexivity |].
  cbn [filter fst]. destruct (String.eqb k' k) eqn:E; cbn [negb].
  - exact IH.
  - cbn [assoc]. rewrite E. exact IH.
Qed.

Lemma assoc_In {A : Type} (k : string) (v : A) (l : list (string * A)) :
  assoc k l = Some v -> In (k, v) l.
Proof.
  induction l as [| [k' v'] l IH]; [discriminate |].
  cbn [assoc]. destruct (String.eqb_spec k' k) as [-> | _].
  - intros E. inversion E; subst. now left.
  - intros E. right. now apply IH.
Qed.

Lemma Cache_match_put_same (k : string) (r : Response) (c : Cache) :
  Cache_match k (Cache_put k r c) = Some r.
Proof.
  unfold Cache_match, Cache_put, Cache_remove.
  rewrite assoc_app, assoc_filter_same. cbn [assoc].
  now rewrite String.eqb_refl.
Qed.

Lemma Cache_match_put_other (k k' : string) (r : Response) (c : Cache) :
  cache_key k <> cache_key k' ->
  Cache_match k (Cache_put k' r c) = Cache_match k c.
Proof.
  intros Hne. unfold Cache_match, Cache_put, Cache_remove.
  rewrite assoc_app, (assoc_filter_other (cache_key k) (cache_key k') c Hne).
  destruct (assoc (cache_key k) c); [reflexivity |].
  cbn [assoc].
  destruct (String.eqb_spec (cache_key k') (cache_key k));
    [congruence | reflexivity].
Qed.

(** Requests that differ in their fragment only are one request to the
    cache. *)
Lemma Cache_match_fragment (k k' : string) (c : Cache) :
  cache_key k = cache_key k' -> Cache_match k c = Cache_match k' c.
Proof. intros E. unfold Cache_match. now rewrite E. Qed.

Lemma Forall_Cache_put (P : string * Response -> Prop)
      (k : string) (r : Response) (c : Cache) :
  Forall P c -> P (cache_key k, r) -> Forall P (Cache_put k r c).
Proof.
  intros Hc Hr. unfold Cache_put, Cache_remove.
  apply Forall_app. split.
  - rewrite Forall_forall in *. intros e He.
    apply filter_In in He. now apply Hc.
  - now constructor.
Qed.

Lemma caches_has_lookup (name : string) (cs : CacheStorage) :
  caches_has name cs = false <-> caches_lookup name cs = None.
Proof.
  unfold caches_has, caches_keys, caches_lookup.
  induction cs as [| [n c] cs IH]; [cbn; tauto |].
  cbn [map fst existsb assoc]. rewrite (String.eqb_sym name n).
  destruct (String.eqb n name); cbn [orb]; [split; discriminate | exact IH].
Qed.

Lemma lookup_caches_open (name : string) (cs : CacheStorage) :
  caches_lookup name (caches_open name cs)
  = Some (match caches_lookup name cs with
          | Some c => c
          | None => []
          end).
Proof.
  unfold caches_open.
  destruct (caches_has name cs) eqn:Hhas.
  - destruct (caches_lookup name cs) eqn:Hl; [reflexivity |].
    apply caches_has_lookup in Hl. congruence.
  - apply caches_has_lookup in Hhas.
    unfold caches_lookup in *. rewrite assoc_app, Hhas.
    cbn [assoc]. now rewrite String.eqb_refl.
Qed.

Lemma lookup_update_store (name : string) (f : Cache -> Cache) (cs : CacheStorage) :
  caches_lookup name (update_store name f cs)
  = option_map f (caches_lookup name cs).
Proof.
  unfold caches_lookup.
  induction cs as [| [n c] cs IH]; [reflexivity |].
  cbn [update_store assoc].
  destruct (String.eqb n name) eqn:E; cbn [assoc]; rewrite E;
    [reflexivity | exact IH].
Qed.

Lemma lookup_put_into_opened (name key : string) (r : Response) (cs : CacheStorage) :
  caches_lookup name (update_store name (Cache_put key r) (caches_open name cs))
  = Some (Cache_put key r (match caches_lookup name cs with
                           | Some c => c
                           | None => []
                           end)).
Proof. now rewrite lookup_update_store, lookup_caches_open. Qed.

(** Opening the dynamic store and putting a response that satisfies [P]
    keeps every entry of the dynamic store within [P]. *)
Lemma dynamic_entries_put (P : Response -> Prop)
      (key : string) (r : Response) (cs : CacheStorage) :
  dynamic_entries P cs -> P r ->
  dynamic_entries P
    (update_store DYNAMIC_CACHE (Cache_put key r) (caches_open DYNAMIC_CACHE cs)).
Proof.
  intros Hinv Hr c Hc.
  rewrite lookup_put_into_opened in Hc. inversion Hc; subst; clear Hc.
  apply (Forall_Cache_put (fun e => P (snd e))); [| exact Hr].
  destruct (caches_lookup DYNAMIC_CACHE cs) as [c0 |] eqn:Hl.
  - now apply Hinv.
  - constructor.
Qed.

Lemma dynamic_entries_open (P : Response -> Prop) (cs : CacheStorage) :
  dynamic_entries P cs -> dynamic_entries P (caches_open DYNAMIC_CACHE cs).
Proof.
  intros Hinv c Hc. rewrite lookup_caches_open in Hc.
  inversion Hc; subst; clear Hc.
  destruct (caches_lookup DYNAMIC_CACHE cs) as [c0 |] eqn:Hl.
  - now apply Hinv.
  - constructor.
Qed.

(** ** What the strategies write *)

Lemma cacheFirst_keeps_store_ok (h : Host) (request : Request) (w : World) :
  dynamic_entries (fun r => ok r = true) (caches w) ->
  dynamic_entries (fun r => ok r = true) (caches (snd (cacheFirst h request w))).
Proof.
  intros Hinv. unfold cacheFirst, bind at 1, caches_match_t.
  destruct (caches_match (url request) (caches w)); [exact Hinv |].
  unfold try_catch, bind, fetch.
  destruct (network h request) as [r |].
  - destruct (ok r) eqn:Hok; [| exact Hinv].
    unfold caches_open_t, cache_put_t, ret.
    destruct (put_refused r); cbn [snd caches set_caches log_fetches].
    + now apply dynamic_entries_open.
    + now apply dynamic_entries_put.
  - destruct (endsWith (url request) ".css"); [exact Hinv |].
    destruct (endsWith (url request) ".js"); exact Hinv.
Qed.

Lemma imageCacheFirst_keeps_store_ok (h : Host) (request : Request) (w : World) :
  dynamic_entries (fun r => ok r = true) (caches w) ->
  dynamic_entries (fun r => ok r = true)
                  (caches (snd (imageCacheFirst h request w))).
Proof.
  intros Hinv. unfold imageCacheFirst, bind at 1, caches_match_t.
  destruct (caches_match (url request) (caches w)); [exact Hinv |].
  unfold try_catch, bind, fetch.
  destruct (network h request) as [r |].
  - destruct (ok r) eqn:Hok; [| exact Hinv].
    unfold caches_open_t, cache_put_t, ret.
    destruct (put_refused r); cbn [snd caches set_caches log_fetches].
    + now apply dynamic_entries_open.
    + now apply dynamic_entries_put.
  - destruct (includes (url request) "placeholder"
              || includes (url request) "postimg.cc"); exact Hinv.
Qed.

(** Network-First stores whatever the network answered, whatever its status. *)
Lemma networkFirst_stores_response
      (h : Host) (request : Request) (w : World) (r : Response) :
  network h request = Some r -> put_refused r = false ->
  exists w' c,
    networkFirst h request w = (Fulfilled (Some r), w')
    /\ caches_lookup DYNAMIC_CACHE (caches w') = Some c
    /\ Cache_match (url request) c = Some r.
Proof.
  intros Hnet Hput.
  unfold networkFirst, try_catch, bind, fetch, caches_open_t, cache_put_t, ret.
  rewrite Hnet, Hput. eexists; eexists.
  split; [reflexivity |].
  cbn [caches set_caches log_fetches].
  rewrite lookup_put_into_opened.
  split; [reflexivity | apply Cache_match_put_same].
Qed.

Lemma networkFirstWithCacheUpdate_stores_response
      (h : Host) (request : Request) (w : World) (r : Response) :
  network h request = Some r -> put_refused r = false ->
  exists w' c,
    networkFirstWithCacheUpdate h request w = (Fulfilled (Some r), w')
    /\ caches_lookup DYNAMIC_CACHE (caches w') = Some c
    /\ Cache_match (url request) c = Some r.
Proof.
  intros Hnet Hput.
  unfold networkFirstWithCacheUpdate, try_catch, bind, fetch,
    caches_open_t, cache_put_t, ret.
  rewrite Hnet, Hput. eexists; eexists.
  split; [reflexivity |].
  cbn [caches set_caches log_fetches].
  rewrite lookup_put_into_opened.
  split; [reflexivity | apply Cache_match_put_same].
Qed.

(** C3 fails on Network-First and Network-First-With-Store-Update, which
    lack the [ok] test that Cache-First and Image-Cache-First make: when
    the server answers a navigation, or a data-store read, with a 500, the
    listener routes the request to these strategies and the 500 ends up in
    the dynamic store. *)
Theorem network_first_caches_error_response :
  ok error_response = false
  /\ fetch_route host_server_error cart_request = Some NetworkFirst
  /\ fst (networkFirst host_server_error cart_request empty_world)
     = Fulfilled (Some error_response)
  /\ caches_lookup DYNAMIC_CACHE
       (caches (snd (networkFirst host_server_error cart_request empty_world)))
     = Some [(url cart_request, error_response)]
  /\ fetch_route host_server_error products_request
     = Some NetworkFirstWithCacheUpdate
  /\ caches_lookup DYNAMIC_CACHE
       (caches (snd (networkFirstWithCacheUpdate host_server_error
                       products_request empty_world)))
     = Some [(url products_request, error_response)].
Proof. vm_compute. repeat split. Qed.

(** ** Image-Cache-First *)

Lemma imageCacheFirst_miss_offline (h : Host) (request : Request) (w : World) :
  caches_match (url request) (caches w) = None ->
  network h request = None ->
  imageCacheFirst h request w =
  (Fulfilled
     (if includes (url request) "placeholder"
         || includes (url request) "postimg.cc"
      then caches_match (resolve h "logo.png") (caches w)
      else Some (new_Response placeholderSvg "image/svg+xml")),
   log_fetches [url request] w).
Proof.
  intros Hmiss Hnet.
  unfold imageCacheFirst, bind at 1, caches_match_t. rewrite Hmiss.
  unfold try_catch, bind at 1, fetch. rewrite Hnet.
  destruct (includes (url request) "placeholder"
            || includes (url request) "postimg.cc"); reflexivity.
Qed.

(** For a URL outside the two patterns the fallback is the generated
    picture, a 200 with an image content type. *)
Lemma imageCacheFirst_generated_placeholder
      (h : Host) (request : Request) (w : World) :
  caches_match (url request) (caches w) = None ->
  network h request = None ->
  includes (url request) "placeholder" = false ->
  includes (url request) "postimg.cc" = false ->
  exists r,
    fst (imageCacheFirst h request w) = Fulfilled (Some r)
    /\ ok r = true
    /\ content_type r = Some "image/svg+xml".
Proof.
  intros Hmiss Hnet Hp1 Hp2.
  rewrite (imageCacheFirst_miss_offline h request w Hmiss Hnet), Hp1, Hp2.
  eexists. split; [reflexivity |]. split; reflexivity.
Qed.

(** C6 fails where the URL matches a placeholder pattern and no store holds
    [logo.png]: after a [CLEAR_CACHE] message the storage is empty, and an
    offline request for a picture on the image service, which the listener
    routes to Image-Cache-First, is answered with no response at all. *)
Theorem image_fallback_without_logo :
  caches cleared_world = []
  /\ fetch_route host_offline product_image_request = Some ImageCacheFirst
  /\ includes (url product_image_request) "postimg.cc" = true
  /\ fst (imageCacheFirst host_offline product_image_request cleared_world)
     = Fulfilled None.
Proof. vm_compute. repeat split. Qed.

(** ** Install *)

Lemma has_duplicates_false_iff (l : list string) :
  has_duplicates l = false <-> NoDup l.
Proof.
  induction l as [| x l IH]; cbn [has_duplicates].
  - split; [constructor | reflexivity].
  - rewrite orb_false_iff, IH. split.
    + intros [Hx Hl]. constructor; [| exact Hl].
      intros Hin. assert (E : existsb (String.eqb x) l = true).
      { apply existsb_exists. exists x. split; [exact Hin | apply String.eqb_refl]. }
      congruence.
    + intros Hnd. inversion Hnd as [| ? ? Hx Hl]; subst. split; [| exact Hl].
      destruct (existsb (String.eqb x) l) eqn:E; [| reflexivity].
      apply existsb_exists in E. destruct E as [y [Hy Exy]].
      apply String.eqb_eq in Exy. subst y. contradiction.
Qed.

Lemma fetch_all_available (h : Host) (urls : list string) :
  Forall (asset_available h) urls ->
  exists es,
    fetch_all h urls = Some es
    /\ map fst es = map (resolve h) urls
    /\ Forall2 (fun u e => fst e = resolve h u
                           /\ network h (asset_request h u) = Some (snd e))
               urls es.
Proof.
  induction 1 as [| u urls [r [Hnet [Hok H206]]] _ [es [Hes [Hkeys Hall]]]].
  - exists []. repeat split. constructor.
  - exists ((resolve h u, r) :: es). cbn [fetch_all].
    rewrite Hnet, Hok, Hes. unfold put_refused.
    apply Nat.eqb_neq in H206. rewrite H206. cbn [negb andb map fst].
    repeat split; [now rewrite Hkeys |].
    constructor; [split; [reflexivity | exact Hnet] | exact Hall].
Qed.

Lemma entry_keys_of_manifest (h : Host) (urls : list string)
      (es : list (string * Response)) :
  map fst es = map (resolve h) urls -> entry_keys es = manifest_keys h urls.
Proof.
  intros Hkeys. unfold entry_keys, manifest_keys.
  now rewrite <- (map_map fst cache_key), Hkeys, map_map.
Qed.

Lemma install_steps_success
      (h : Host) (name : string) (urls : list string) (w : World)
      (es : list (string * Response)) :
  fetch_all h urls = Some es ->
  has_duplicates (entry_keys es) = false ->
  (caches_open_t name ;; Cache_addAll h name urls ;; skipWaiting) w
  = (Fulfilled tt,
     set_skip_waiting
       (set_caches (update_store name (put_all es))
          (log_fetches (map (resolve h) urls)
             (set_caches (caches_open name) w)))).
Proof.
  intros Hes Hdup. unfold bind, caches_open_t, Cache_addAll, skipWaiting.
  rewrite Hes, Hdup. reflexivity.
Qed.

Lemma install_steps_failure
      (h : Host) (name : string) (urls : list string) (w : World) :
  fetch_all h urls = None ->
  (caches_open_t name ;; Cache_addAll h name urls ;; skipWaiting) w
  = (Rejected TypeError,
     log_fetches (map (resolve h) urls) (set_caches (caches_open name) w)).
Proof.
  intros Hes. unfold bind, caches_open_t, Cache_addAll. now rewrite Hes.
Qed.

(** The install listener's promise never rejects: a failed batch is caught,
    the worker is left without the skip-waiting request and with a static
    store that received nothing. *)
Lemma on_install_swallows_failure (h : Host) (w : World) :
  fetch_all h STATIC_ASSETS = None ->
  exists w',
    on_install h w = (Fulfilled tt, w')
    /\ skip_waiting w' = skip_waiting w
    /\ caches w' = caches_open CACHE_NAME (caches w).
Proof.
  intros Hfail. unfold on_install, try_catch.
  rewrite (install_steps_failure h CACHE_NAME STATIC_ASSETS w Hfail).
  eexists. repeat split.
Qed.

(** The listener of [src/sw.js] has no catch: the same failure rejects. *)
Lemma SwJs_on_install_rejects (h : Host) (w : World) :
  fetch_all h STATIC_ASSETS = None ->
  fst (SwJs.on_install h w) = Rejected TypeError
  /\ after_install (fst (SwJs.on_install h w)) (snd (SwJs.on_install h w))
     = Redundant.
Proof.
  intros Hfail. unfold SwJs.on_install.
  change (SwJs.STATIC_CACHE ++ SwJs.EXTERNAL_RESOURCES) with STATIC_ASSETS.
  rewrite (install_steps_failure h SwJs.CACHE_NAME STATIC_ASSETS w Hfail).
  split; reflexivity.
Qed.

(** C2 fails on the current listener: with [manifest.json] unreachable the
    batch is refused, yet the promise given to [waitUntil] fulfils, so the
    host keeps the worker as the waiting one with an empty static store.
    The listener of [src/sw.js] rejects on the same input. *)
Theorem install_fulfils_despite_failed_asset :
  fetch_all host_missing_manifest STATIC_ASSETS = None
  /\ fst (on_install host_missing_manifest empty_world) = Fulfilled tt
  /\ after_install (fst (on_install host_missing_manifest empty_world))
                   (snd (on_install host_missing_manifest empty_world))
     = Waiting
  /\ caches (snd (on_install host_missing_manifest empty_world))
     = [(CACHE_NAME, [])]
  /\ fst (SwJs.on_install host_missing_manifest empty_world)
     = Rejected TypeError.
Proof. vm_compute. repeat split. Qed.

(** When every manifest asset is served with an acceptable status (and
    the manifest names no asset twice), the install promise fulfils with
    the skip-waiting request made, whatever the world was before, and the
    host moves the worker on to activation.  This holds for the current
    listener and for the one of [src/sw.js]. *)
Lemma install_success_skips_waiting (h : Host) (w : World) :
  NoDup (manifest_keys h STATIC_ASSETS) ->
  Forall (asset_available h) STATIC_ASSETS ->
  (exists w',
      on_install h w = (Fulfilled tt, w')
      /\ skip_waiting w' = true
      /\ after_install (Fulfilled tt) w' = Activating)
  /\ (exists w',
         SwJs.on_install h w = (Fulfilled tt, w')
         /\ skip_waiting w' = true
         /\ after_install (Fulfilled tt) w' = Activating).
Proof.
  intros Hnd Hav.
  destruct (fetch_all_available h STATIC_ASSETS Hav) as [es [Hes [Hkeys _]]].
  assert (Hdup : has_duplicates (entry_keys es) = false).
  { apply has_duplicates_false_iff.
    now rewrite (entry_keys_of_manifest h STATIC_ASSETS es Hkeys). }
  split.
  - unfold on_install, try_catch.
    rewrite (install_steps_success h CACHE_NAME STATIC_ASSETS w es Hes Hdup).
    eexists. repeat split.
  - unfold SwJs.on_install.
    change (SwJs.STATIC_CACHE ++ SwJs.EXTERNAL_RESOURCES) with STATIC_ASSETS.
    rewrite (install_steps_success h SwJs.CACHE_NAME STATIC_ASSETS w es Hes Hdup).
    eexists. repeat split.
Qed.

Lemma install_success_skips_waiting_witness :
  (exists w',
      on_install host_online empty_world = (Fulfilled tt, w')
      /\ skip_waiting w' = true
      /\ after_install (Fulfilled tt) w' = Activating)
  /\ (exists w',
         SwJs.on_install host_online empty_world = (Fulfilled tt, w')
         /\ skip_waiting w' = true
         /\ after_install (Fulfilled tt) w' = Activating).
Proof.
  apply (install_success_skips_waiting host_online empty_world).
  - apply has_duplicates_false_iff. vm_compute. reflexivity.
  - repeat constructor; exists page_response;
      (split; [reflexivity | split; [reflexivity | cbn; lia]]).
Defined.

(** A failed batch leaves the current listener's worker waiting unless
    skip-waiting had been requested before. *)
Lemma on_install_waits_after_failure (h : Host) (w : World) :
  fetch_all h STATIC_ASSETS = None ->
  skip_waiting w = false ->
  exists w',
    on_install h w = (Fulfilled tt, w')
    /\ skip_waiting w' = false
    /\ after_install (Fulfilled tt) w' = Waiting.
Proof.
  intros Hfail Hflag.
  destruct (on_install_swallows_failure h w Hfail) as [w' [Hrun [Hs _]]].
  exists w'. rewrite Hflag in Hs. split; [exact Hrun |]. split; [exact Hs |].
  unfold after_install. now rewrite Hs.
Qed.

(** The listener of [src/sw.js] never leaves its worker waiting: its
    install either ends in [skipWaiting] or rejects. *)
Lemma SwJs_install_never_waits (h : Host) (w : World) :
  after_install (fst (SwJs.on_install h w)) (snd (SwJs.on_install h w))
  <> Waiting.
Proof.
  unfold SwJs.on_install, bind, caches_open_t, Cache_addAll, skipWaiting.
  destruct (fetch_all h (SwJs.STATIC_CACHE ++ SwJs.EXTERNAL_RESOURCES)) as [es |].
  - destruct (has_duplicates (entry_keys es)); cbn; discriminate.
  - cbn. discriminate.
Qed.

(** C10 fails on the current listener, by the defect of C2: with
    [manifest.json] unreachable the install promise still fulfils, so the
    install completes, but [skipWaiting] was never called and the host
    leaves the new version waiting.  On the same input the listener of
    [src/sw.js] rejects and the version is discarded, never left waiting. *)
Theorem install_completes_without_skip_waiting :
  fst (on_install host_missing_manifest empty_world) = Fulfilled tt
  /\ skip_waiting (snd (on_install host_missing_manifest empty_world)) = false
  /\ after_install (fst (on_install host_missing_manifest empty_world))
                   (snd (on_install host_missing_manifest empty_world))
     = Waiting
  /\ after_install (fst (SwJs.on_install host_missing_manifest empty_world))
                   (snd (SwJs.on_install host_missing_manifest empty_world))
     = Redundant.
Proof. vm_compute. repeat split. Qed.

(** *** What a successful install leaves in the static store *)

Lemma Cache_remove_absent (k : string) (c : Cache) :
  ~ In (cache_key k) (map fst c) -> Cache_remove k c = c.
Proof.
  unfold Cache_remove. induction c as [| [k' r] c IH]; [reflexivity |].
  cbn [map fst In filter]. intros Hnot.
  destruct (String.eqb_spec k' (cache_key k)) as [E | _]; cbn [negb].
  - exfalso. apply Hnot. now left.
  - f_equal. apply IH. intros Hin. apply Hnot. now right.
Qed.

(** The entries a batch leaves, as they are stored. *)
Lemma put_all_append (es : list (string * Response)) (c : Cache) :
  NoDup (entry_keys es) ->
  (forall k, In k (entry_keys es) -> ~ In k (map fst c)) ->
  put_all es c = c ++ map (fun e => (cache_key (fst e), snd e)) es.
Proof.
  revert c. induction es as [| [k r] es IH]; intros c Hn Hf.
  - cbn. now rewrite app_nil_r.
  - change (put_all ((k, r) :: es) c) with (put_all es (Cache_put k r c)).
    unfold entry_keys in *. cbn [map fst snd] in *.
    inversion Hn as [| ? ? Hk Hn']; subst.
    unfold Cache_put.
    rewrite Cache_remove_absent by (apply Hf; now left).
    rewrite IH; [now rewrite <- app_assoc | exact Hn' |].
    intros k' Hin. rewrite map_app, in_app_iff. cbn [map fst In].
    intros [Hc | [E | []]].
    + apply (Hf k'); [now right | exact Hc].
    + subst k'. contradiction.
Qed.

Lemma put_all_keys_fresh (es : list (string * Response)) (c : Cache) :
  NoDup (entry_keys es) ->
  (forall k, In k (entry_keys es) -> ~ In k (map fst c)) ->
  map fst (put_all es c) = map fst c ++ entry_keys es.
Proof.
  intros Hn Hf. rewrite (put_all_append es c Hn Hf), map_app.
  unfold entry_keys. now rewrite map_map.
Qed.

Lemma put_all_match_absent (es : list (string * Response)) (c : Cache) (k : string) :
  ~ In (cache_key k) (entry_keys es) ->
  Cache_match k (put_all es c) = Cache_match k c.
Proof.
  revert c. induction es as [| [k' r] es IH]; intros c Hnot; [reflexivity |].
  change (put_all ((k', r) :: es) c) with (put_all es (Cache_put k' r c)).
  unfold entry_keys in *. cbn [map fst In] in Hnot.
  rewrite IH by tauto. apply Cache_match_put_other.
  intros E. apply Hnot. left. now symmetry.
Qed.

Lemma put_all_match (es : list (string * Response)) (c : Cache)
      (k : string) (r : Response) :
  NoDup (entry_keys es) -> In (k, r) es -> Cache_match k (put_all es c) = Some r.
Proof.
  revert c. induction es as [| [k' r'] es IH]; intros c Hnd Hin; [contradiction |].
  change (put_all ((k', r') :: es) c) with (put_all es (Cache_put k' r' c)).
  unfold entry_keys in *. cbn [map fst] in Hnd.
  inversion Hnd as [| ? ? Hk Hnd']; subst.
  destruct Hin as [E | Hin].
  - inversion E; subst.
    rewrite put_all_match_absent by exact Hk. apply Cache_match_put_same.
  - now apply IH.
Qed.

Lemma Forall2_In_l {A B : Type} (R : A -> B -> Prop)
      (l1 : list A) (l2 : list B) (a : A) :
  Forall2 R l1 l2 -> In a l1 -> exists b, In b l2 /\ R a b.
Proof.
  induction 1 as [| x y l1 l2 Hxy _ IH]; [contradiction |].
  intros [-> | Hin].
  - exists y. split; [now left | exact Hxy].
  - destruct (IH Hin) as [b [Hb Hab]]. exists b. split; [now right | exact Hab].
Qed.

(** After a successful install the static store answers every manifest URL
    with the response that was fetched for it, and a store that did not
    exist before holds the manifest's URLs, each once, and nothing else. *)
Lemma on_install_success_store (h : Host) (w : World) :
  NoDup (manifest_keys h STATIC_ASSETS) ->
  Forall (asset_available h) STATIC_ASSETS ->
  exists w' c,
    on_install h w = (Fulfilled tt, w')
    /\ caches_lookup CACHE_NAME (caches w') = Some c
    /\ (forall u, In u STATIC_ASSETS ->
          exists r, network h (asset_request h u) = Some r
                    /\ Cache_match (resolve h u) c = Some r)
    /\ (caches_lookup CACHE_NAME (caches w) = None ->
        map fst c = manifest_keys h STATIC_ASSETS /\ NoDup (map fst c)).
Proof.
  intros Hnd Hav.
  destruct (fetch_all_available h STATIC_ASSETS Hav) as [es [Hes [Hkeys Hall]]].
  pose proof (entry_keys_of_manifest h STATIC_ASSETS es Hkeys) as Hk'.
  assert (Hnd' : NoDup (entry_keys es)) by now rewrite Hk'.
  assert (Hdup : has_duplicates (entry_keys es) = false)
    by now apply has_duplicates_false_iff.
  eexists. eexists. split.
  { unfold on_install, try_catch.
    rewrite (install_steps_success h CACHE_NAME STATIC_ASSETS w es Hes Hdup).
    reflexivity. }
  cbn [caches set_skip_waiting set_caches log_fetches].
  rewrite lookup_update_store, lookup_caches_open. cbn [option_map].
  split; [reflexivity |]. split.
  - intros u Hu.
    destruct (Forall2_In_l _ _ _ _ Hall Hu) as [[k r] [Hin [Hk Hr]]].
    cbn [fst snd] in *. subst k. exists r. split; [exact Hr |].
    now apply put_all_match.
  - intros Hfresh. rewrite Hfresh.
    rewrite put_all_keys_fresh; [| exact Hnd' | intros k _ []].
    cbn [map app]. rewrite Hk'. split; [reflexivity | exact Hnd].
Qed.

(** * Further properties of the strategies *)

(** ** Matching across stores *)

Lemma caches_match_app (key : string) (cs1 cs2 : CacheStorage) :
  caches_match key (cs1 ++ cs2)
  = match caches_match key cs1 with
    | Some r => Some r
    | None => caches_match key cs2
    end.
Proof.
  induction cs1 as [| [n c] cs1 IH]; [reflexivity |].
  cbn [app caches_match]. destruct (Cache_match key c); [reflexivity | exact IH].
Qed.

Lemma caches_match_open (key name : string) (cs : CacheStorage) :
  caches_match key (caches_open name cs) = caches_match key cs.
Proof.
  unfold caches_open. destruct (caches_has name cs); [reflexivity |].
  rewrite caches_match_app. cbn. now destruct (caches_match key cs).
Qed.

Lemma caches_match_update_miss
      (key name : string) (f : Cache -> Cache) (cs : CacheStorage) :
  caches_match key cs = None ->
  caches_match key (update_store name f cs)
  = match caches_lookup name cs with
    | Some c => Cache_match key (f c)
    | None => None
    end.
Proof.
  unfold caches_lookup.
  induction cs as [| [n c] cs IH]; [reflexivity |].
  cbn [caches_match update_store assoc].
  destruct (Cache_match key c) eqn:Hc; [discriminate |].
  intros Hrest. destruct (String.eqb n name); cbn [caches_match].
  - rewrite Hrest. now destruct (Cache_match key (f c)).
  - rewrite Hc. now apply IH.
Qed.

(** A response put into a freshly opened store is what the storage answers
    with afterwards, provided no store answered the request before. *)
Lemma caches_match_put_fresh
      (key name : string) (r : Response) (cs : CacheStorage) :
  caches_match key cs = None ->
  caches_match key (update_store name (Cache_put key r) (caches_open name cs))
  = Some r.
Proof.
  intros Hmiss.
  rewrite caches_match_update_miss by now rewrite caches_match_open.
  rewrite lookup_caches_open. apply Cache_match_put_same.
Qed.

(** An entry of the oldest store keeps answering, whatever is put into a
    store of another name. *)
Lemma caches_match_shadowed
      (key name n0 : string) (c0 : Cache) (rest : CacheStorage)
      (f : Cache -> Cache) (r0 : Response) :
  n0 <> name -> Cache_match key c0 = Some r0 ->
  caches_match key (update_store name f (caches_open name ((n0, c0) :: rest)))
  = Some r0.
Proof.
  intros Hne Hc0.
  assert (E : String.eqb n0 name = false) by now apply String.eqb_neq.
  unfold caches_open.
  destruct (caches_has name ((n0, c0) :: rest));
    cbn [app update_store]; rewrite E; cbn [caches_match]; now rewrite Hc0.
Qed.

(** ** How the network-first strategies run *)

Lemma networkFirst_online (h : Host) (request : Request) (w : World) (r : Response) :
  network h request = Some r ->
  networkFirst h request w
  = (Fulfilled (Some r),
     if put_refused r
     then set_caches (caches_open DYNAMIC_CACHE) (log_fetches [url request] w)
     else set_caches (update_store DYNAMIC_CACHE (Cache_put (url request) r))
            (set_caches (caches_open DYNAMIC_CACHE)
               (log_fetches [url request] w))).
Proof.
  intros Hnet.
  unfold networkFirst, try_catch, bind, fetch, caches_open_t, cache_put_t, ret.
  rewrite Hnet. reflexivity.
Qed.

Lemma networkFirst_offline (h : Host) (request : Request) (w : World) :
  network h request = None ->
  networkFirst h request w
  = (match caches_match (url request) (caches w) with
     | Some r => Fulfilled (Some r)
     | None =>
         if accepts_html request
         then Fulfilled (caches_match (resolve h "/") (caches w))
         else Rejected NetworkError
     end, log_fetches [url request] w).
Proof.
  intros Hnet.
  unfold networkFirst, try_catch, bind, fetch, caches_match_t, ret, throw.
  rewrite Hnet. cbn [caches log_fetches].
  destruct (caches_match (url request) (caches w)); [reflexivity |].
  destruct (accepts_html request); reflexivity.
Qed.

Lemma networkFirstWithCacheUpdate_online
      (h : Host) (request : Request) (w : World) (r : Response) :
  network h request = Some r ->
  networkFirstWithCacheUpdate h request w
  = (Fulfilled (Some r),
     if put_refused r
     then set_caches (caches_open DYNAMIC_CACHE) (log_fetches [url request] w)
     else set_caches (update_store DYNAMIC_CACHE (Cache_put (url request) r))
            (set_caches (caches_open DYNAMIC_CACHE)
               (log_fetches [url request] w))).
Proof.
  intros Hnet.
  unfold networkFirstWithCacheUpdate, try_catch, bind, fetch,
    caches_open_t, cache_put_t, ret.
  rewrite Hnet. reflexivity.
Qed.

Lemma networkFirstWithCacheUpdate_offline
      (h : Host) (request : Request) (w : World) :
  network h request = None ->
  networkFirstWithCacheUpdate h request w
  = (match caches_match (url request) (caches w) with
     | Some r => Fulfilled (Some r)
     | None =>
         if includes (url request) "firestore.googleapis.com"
         then Fulfilled (Some (new_Response "[]" "application/json"))
         else Rejected NetworkError
     end, log_fetches [url request] w).
Proof.
  intros Hnet.
  unfold networkFirstWithCacheUpdate, try_catch, bind, fetch,
    caches_match_t, ret, throw.
  rewrite Hnet. cbn [caches log_fetches].
  destruct (caches_match (url request) (caches w)); [reflexivity |].
  destruct (includes (url request) "firestore.googleapis.com"); reflexivity.
Qed.

(** X1. Network-First round trip: for a request with an http(s) URL that
    no store answered before (fragment aside), the response fetched while
    online (any status but 206) is the one served for the same request
    once the network is gone. *)
Theorem networkFirst_round_trip
        (h_on h_off : Host) (request : Request) (w : World) (r : Response) :
  http_url (url request) = true ->
  caches_match (url request) (caches w) = None ->
  network h_on request = Some r ->
  put_refused r = false ->
  network h_off request = None ->
  fst (networkFirst h_off request (snd (networkFirst h_on request w)))
  = Fulfilled (Some r).
Proof.
  intros _ Hmiss Hon Hput Hoff.
  rewrite (networkFirst_online h_on request w r Hon), Hput. cbn [snd].
  rewrite (networkFirst_offline h_off request _ Hoff).
  cbn [fst caches set_caches log_fetches].
  now rewrite (caches_match_put_fresh _ _ r _ Hmiss).
Qed.

Lemma networkFirst_round_trip_witness :
  fst (networkFirst host_offline cart_request
         (snd (networkFirst host_server_error cart_request empty_world)))
  = Fulfilled (Some error_response).
Proof.
  apply (networkFirst_round_trip host_server_error host_offline cart_request
           empty_world error_response); reflexivity.
Defined.

(** X2. Network-First-With-Store-Update round trip: under the same
    conditions the offline follow-up gets back the very response that was
    fetched, status and body included. *)
Theorem networkFirstWithCacheUpdate_round_trip
        (h_on h_off : Host) (request : Request) (w : World) (r : Response) :
  caches_match (url request) (caches w) = None ->
  network h_on request = Some r ->
  put_refused r = false ->
  network h_off request = None ->
  fst (networkFirstWithCacheUpdate h_off request
         (snd (networkFirstWithCacheUpdate h_on request w)))
  = Fulfilled (Some r).
Proof.
  intros Hmiss Hon Hput Hoff.
  rewrite (networkFirstWithCacheUpdate_online h_on request w r Hon), Hput.
  cbn [snd].
  rewrite (networkFirstWithCacheUpdate_offline h_off request _ Hoff).
  cbn [fst caches set_caches log_fetches].
  now rewrite (caches_match_put_fresh _ _ r _ Hmiss).
Qed.

Lemma networkFirstWithCacheUpdate_round_trip_witness :
  fst (networkFirstWithCacheUpdate host_offline products_request
         (snd (networkFirstWithCacheUpdate host_online products_request
                 empty_world)))
  = Fulfilled (Some page_response).
Proof.
  apply (networkFirstWithCacheUpdate_round_trip host_online host_offline
           products_request empty_world page_response); reflexivity.
Defined.

(** X3. The offline fallback reads the oldest store first: when the first
    store of the storage, not the dynamic one, already holds the request,
    its copy is what Network-First serves offline, even after a newer
    response was fetched and written to the dynamic store. *)
Theorem networkFirst_offline_serves_oldest_copy
        (h_on h_off : Host) (request : Request) (w : World)
        (n0 : string) (c0 : Cache) (rest : CacheStorage) (r r0 : Response) :
  caches w = (n0, c0) :: rest ->
  n0 <> DYNAMIC_CACHE ->
  Cache_match (url request) c0 = Some r0 ->
  network h_on request = Some r ->
  network h_off request = None ->
  fst (networkFirst h_on request w) = Fulfilled (Some r)
  /\ fst (networkFirst h_off request (snd (networkFirst h_on request w)))
     = Fulfilled (Some r0).
Proof.
  intros Hcs Hne Hc0 Hon Hoff.
  rewrite (networkFirst_online h_on request w r Hon). split; [reflexivity |].
  cbn [snd]. rewrite (networkFirst_offline h_off request _ Hoff). cbn [fst].
  destruct (put_refused r); cbn [caches set_caches log_fetches]; rewrite Hcs.
  - rewrite caches_match_open. cbn [caches_match]. now rewrite Hc0.
  - now rewrite (caches_match_shadowed _ _ n0 c0 rest _ r0 Hne Hc0).
Qed.

Lemma networkFirst_offline_serves_oldest_copy_witness :
  fst (networkFirst host_fresh root_request world_with_old_root)
  = Fulfilled (Some fresh_page_response)
  /\ fst (networkFirst host_offline root_request
            (snd (networkFirst host_fresh root_request world_with_old_root)))
     = Fulfilled (Some page_response).
Proof.
  apply (networkFirst_offline_serves_oldest_copy host_fresh host_offline
           root_request world_with_old_root CACHE_NAME
           [("https://shopeasy.example/", page_response)] []
           fresh_page_response page_response);
    try reflexivity.
  intros H. discriminate H.
Defined.

(** X4. Network-First rejects in exactly one situation: the fetch fails,
    no store holds the request, and the request does not accept HTML.  The
    error is then the network error itself. *)
Theorem networkFirst_rejects_iff (h : Host) (request : Request) (w : World) :
  (exists e, fst (networkFirst h request w) = Rejected e)
  <-> network h request = None
      /\ caches_match (url request) (caches w) = None
      /\ accepts_html request = false.
Proof.
  destruct (network h request) as [r |] eqn:Hnet.
  - rewrite (networkFirst_online h request w r Hnet). cbn [fst]. split.
    + intros [e He]. discriminate He.
    + intros [Hn _]. discriminate Hn.
  - rewrite (networkFirst_offline h request w Hnet). cbn [fst].
    destruct (caches_match (url request) (caches w)) as [r |].
    + split; [intros [e He]; discriminate He | intros [_ [Hm _]]; discriminate Hm].
    + destruct (accepts_html request).
      * split; [intros [e He]; discriminate He
               | intros [_ [_ Ha]]; discriminate Ha].
      * split; [auto | intros _; now exists NetworkError].
Qed.

(** ** Data-store reads *)

Lemma networkFirstWithCacheUpdate_rejects_iff
      (h : Host) (request : Request) (w : World) :
  (exists e, fst (networkFirstWithCacheUpdate h request w) = Rejected e)
  <-> network h request = None
      /\ caches_match (url request) (caches w) = None
      /\ includes (url request) "firestore.googleapis.com" = false.
Proof.
  destruct (network h request) as [r |] eqn:Hnet.
  - rewrite (networkFirstWithCacheUpdate_online h request w r Hnet). cbn [fst].
    split; [intros [e He]; discriminate He | intros [Hn _]; discriminate Hn].
  - rewrite (networkFirstWithCacheUpdate_offline h request w Hnet). cbn [fst].
    destruct (caches_match (url request) (caches w)) as [r |].
    + split; [intros [e He]; discriminate He | intros [_ [Hm _]]; discriminate Hm].
    + destruct (includes (url request) "firestore.googleapis.com").
      * split; [intros [e He]; discriminate He
               | intros [_ [_ Ha]]; discriminate Ha].
      * split; [auto | intros _; now exists NetworkError].
Qed.

(** X5. A read from the Firestore host never fails: when the host name the
    listener routes on occurs in the request URL (as it does in a
    serialised URL) and names Firestore, Network-First-With-Store-Update
    always fulfils with a response, online or not, cached or not. *)
Theorem firestore_reads_never_fail (h : Host) (request : Request) (w : World) :
  includes (url request) (hostname_of h (url request)) = true ->
  includes (hostname_of h (url request)) "firestore.googleapis.com" = true ->
  exists r, fst (networkFirstWithCacheUpdate h request w) = Fulfilled (Some r).
Proof.
  intros Hsub Hhost.
  pose proof (includes_trans _ _ _ Hsub Hhost) as Hurl.
  destruct (network h request) as [r |] eqn:Hnet.
  - rewrite (networkFirstWithCacheUpdate_online h request w r Hnet). now exists r.
  - rewrite (networkFirstWithCacheUpdate_offline h request w Hnet). cbn [fst].
    destruct (caches_match (url request) (caches w)) as [r |].
    + now exists r.
    + rewrite Hurl. eexists; reflexivity.
Qed.

Lemma firestore_reads_never_fail_witness :
  exists r,
    fst (networkFirstWithCacheUpdate host_offline products_request empty_world)
    = Fulfilled (Some r).
Proof.
  apply (firestore_reads_never_fail host_offline products_request empty_world);
    reflexivity.
Defined.

(** ** Install, then offline navigation *)

(** X6. First install, then an offline visit: after a successful install
    into an empty storage, a navigation request for a page that is none of
    the manifest's URLs (fragment aside), made while the network is down,
    is answered with the root document that the install fetched. *)
Theorem offline_navigation_gets_installed_root
        (h h_off : Host) (request : Request) (w : World) :
  caches w = [] ->
  NoDup (manifest_keys h STATIC_ASSETS) ->
  Forall (asset_available h) STATIC_ASSETS ->
  resolve h_off "/" = resolve h "/" ->
  network h_off request = None ->
  accepts_html request = true ->
  ~ In (cache_key (url request)) (manifest_keys h STATIC_ASSETS) ->
  exists root,
    network h (asset_request h "/") = Some root
    /\ fst (networkFirst h_off request (snd (on_install h w)))
       = Fulfilled (Some root).
Proof.
  intros Hempty Hnd Hav Hroot Hoff Hhtml Hout.
  destruct (fetch_all_available h STATIC_ASSETS Hav) as [es [Hes [Hkeys Hall]]].
  pose proof (entry_keys_of_manifest h STATIC_ASSETS es Hkeys) as Hk'.
  assert (Hnd' : NoDup (entry_keys es)) by now rewrite Hk'.
  assert (Hdup : has_duplicates (entry_keys es) = false)
    by now apply has_duplicates_false_iff.
  assert (Hin : In "/" STATIC_ASSETS) by (now left).
  destruct (Forall2_In_l _ _ _ _ Hall Hin) as [[k root] [Hke [Hk Hr]]].
  cbn [fst snd] in Hk, Hr. subst k.
  exists root. split; [exact Hr |].
  unfold on_install, try_catch.
  rewrite (install_steps_success h CACHE_NAME STATIC_ASSETS w es Hes Hdup).
  cbn [snd]. rewrite (networkFirst_offline h_off request _ Hoff).
  cbn [fst caches set_skip_waiting set_caches log_fetches].
  rewrite Hempty.
  change (caches_open CACHE_NAME []) with [(CACHE_NAME, @nil (string * Response))].
  cbn [update_store]. rewrite String.eqb_refl. cbn [caches_match].
  rewrite put_all_match_absent by now rewrite Hk'.
  unfold Cache_match at 1. cbn [assoc]. rewrite Hhtml, Hroot.
  now rewrite (put_all_match es [] (resolve h "/") root Hnd' Hke).
Qed.

Lemma offline_navigation_gets_installed_root_witness :
  exists root,
    network host_online (asset_request host_online "/") = Some root
    /\ fst (networkFirst host_offline cart_request
              (snd (on_install host_online empty_world)))
       = Fulfilled (Some root).
Proof.
  apply (offline_navigation_gets_installed_root host_online host_offline
           cart_request empty_world); try reflexivity.
  - apply has_duplicates_false_iff. vm_compute. reflexivity.
  - repeat constructor; exists page_response;
      (split; [reflexivity | split; [reflexivity | cbn; lia]]).
  - intros Hin. vm_compute in Hin. intuition discriminate.
Defined.

(** ** Cache-First beyond the hit *)

Lemma cacheFirst_online_run
      (h : Host) (request : Request) (w : World) (r : Response) :
  caches_match (url request) (caches w) = None ->
  network h request = Some r ->
  cacheFirst h request w
  = (Fulfilled (Some r),
     if ok r then
       if put_refused r
       then set_caches (caches_open DYNAMIC_CACHE) (log_fetches [url request] w)
       else set_caches (update_store DYNAMIC_CACHE (Cache_put (url request) r))
              (set_caches (caches_open DYNAMIC_CACHE)
                 (log_fetches [url request] w))
     else log_fetches [url request] w).
Proof.
  intros Hmiss Hnet.
  unfold cacheFirst, bind at 1, caches_match_t. rewrite Hmiss.
  unfold try_catch, bind, fetch, caches_open_t, cache_put_t, ret.
  rewrite Hnet. destruct (ok r); [destruct (put_refused r) |]; reflexivity.
Qed.

Lemma repeat_cacheFirst_hit
      (h : Host) (request : Request) (w : World) (r : Response) (n : nat) :
  caches_match (url request) (caches w) = Some r ->
  repeat_task n (cacheFirst h request) w = (repeat (Fulfilled (Some r)) n, w).
Proof.
  intros Hhit. induction n as [| n IH]; [reflexivity |].
  cbn [repeat_task repeat].
  now rewrite (cacheFirst_hit h request w r Hhit), IH.
Qed.

(** X7. Cache-First fetches a cacheable asset once: when the request has
    an http(s) URL, no store holds it and the network answers with a
    success status other than 206, any number of lookups in a row all
    return that response, and the network is asked exactly once. *)
Theorem cacheFirst_fetches_once
        (h : Host) (request : Request) (w : World) (r : Response) (n : nat) :
  http_url (url request) = true ->
  caches_match (url request) (caches w) = None ->
  network h request = Some r ->
  ok r = true ->
  put_refused r = false ->
  fst (repeat_task (S n) (cacheFirst h request) w)
  = repeat (Fulfilled (Some r)) (S n)
  /\ fetch_log (snd (repeat_task (S n) (cacheFirst h request) w))
     = fetch_log w ++ [url request].
Proof.
  intros _ Hmiss Hnet Hok Hput.
  cbn [repeat_task repeat].
  rewrite (cacheFirst_online_run h request w r Hmiss Hnet), Hok, Hput.
  rewrite (repeat_cacheFirst_hit h request _ r n).
  - split; reflexivity.
  - cbn [caches set_caches log_fetches]. now apply caches_match_put_fresh.
Qed.

Lemma cacheFirst_fetches_once_witness :
  fst (repeat_task 3 (cacheFirst host_online (get style_url None)) empty_world)
  = repeat (Fulfilled (Some page_response)) 3
  /\ fetch_log (snd (repeat_task 3 (cacheFirst host_online (get style_url None))
                                 empty_world))
     = fetch_log empty_world ++ [url (get style_url None)].
Proof.
  apply (cacheFirst_fetches_once host_online (get style_url None) empty_world
           page_response 2); reflexivity.
Defined.

(** X8. Cache-First does not keep what it should not: a response with an
    error status, or a 206, is handed to the page but leaves every answer
    of the storage as it was, so each later lookup goes to the network
    again. *)
Theorem cacheFirst_uncacheable_refetches
        (h : Host) (request : Request) (w : World) (r : Response) (n : nat) :
  caches_match (url request) (caches w) = None ->
  network h request = Some r ->
  ok r = false \/ put_refused r = true ->
  fst (repeat_task n (cacheFirst h request) w) = repeat (Fulfilled (Some r)) n
  /\ fetch_log (snd (repeat_task n (cacheFirst h request) w))
     = fetch_log w ++ repeat (url request) n
  /\ forall key,
       caches_match key (caches (snd (repeat_task n (cacheFirst h request) w)))
       = caches_match key (caches w).
Proof.
  intros Hmiss Hnet Hbad. revert w Hmiss.
  induction n as [| n IH]; intros w Hmiss.
  - cbn. rewrite app_nil_r. repeat split.
  - cbn [repeat_task repeat].
    rewrite (cacheFirst_online_run h request w r Hmiss Hnet).
    set (w1 := if ok r then _ else _).
    assert (Hc : forall key, caches_match key (caches w1) = caches_match key (caches w)).
    { intros key. subst w1. destruct (ok r) eqn:Hok.
      - destruct Hbad as [Hb | Hb]; [discriminate | rewrite Hb].
        cbn [caches set_caches log_fetches]. apply caches_match_open.
      - reflexivity. }
    assert (Hl : fetch_log w1 = fetch_log w ++ [url request]).
    { subst w1. destruct (ok r); [destruct (put_refused r) |]; reflexivity. }
    assert (Hmiss1 : caches_match (url request) (caches w1) = None)
      by now rewrite Hc.
    destruct (IH w1 Hmiss1) as [Hout [Hlog Hkeep]].
    destruct (repeat_task n (cacheFirst h request) w1) as [os w2].
    cbn [fst snd] in *. split; [now rewrite Hout |]. split.
    + rewrite Hlog, Hl, <- app_assoc. reflexivity.
    + intros key. now rewrite Hkeep, Hc.
Qed.

Lemma cacheFirst_uncacheable_refetches_witness :
  fst (repeat_task 2 (cacheFirst host_server_error (get style_url None))
                   empty_world)
  = repeat (Fulfilled (Some error_response)) 2
  /\ fetch_log (snd (repeat_task 2 (cacheFirst host_server_error
                                      (get style_url None)) empty_world))
     = fetch_log empty_world ++ repeat (url (get style_url None)) 2
  /\ forall key,
       caches_match key
         (caches (snd (repeat_task 2 (cacheFirst host_server_error
                                        (get style_url None)) empty_world)))
       = caches_match key (caches empty_world).
Proof.
  apply (cacheFirst_uncacheable_refetches host_server_error
           (get style_url None) empty_world error_response 2);
    [reflexivity | reflexivity | left; reflexivity].
Defined.

(** ** Which requests Cache-First can fail *)

Ltac suffix_clash :=
  let s := fresh "s" in
  let c := fresh "c" in
  let IH := fresh "IH" in
  let E := fresh "E" in
  intros s; induction s as [| c s IH]; [discriminate |];
  cbn [endsWith];
  match goal with
  | |- (String.eqb ?x ?a || _ = true) -> (String.eqb ?x ?b || _ = false) =>
      destruct (String.eqb_spec x a) as [E | _];
      [ intros _; inversion E; subst; reflexivity
      | destruct (String.eqb_spec x b) as [E | _];
        [ inversion E; subst; discriminate | cbn [orb]; exact IH ] ]
  end.

Lemma endsWith_woff_not_css :
  forall s, endsWith s ".woff" = true -> endsWith s ".css" = false.
Proof. suffix_clash. Qed.

Lemma endsWith_woff_not_js :
  forall s, endsWith s ".woff" = true -> endsWith s ".js" = false.
Proof. suffix_clash. Qed.

Lemma endsWith_woff2_not_css :
  forall s, endsWith s ".woff2" = true -> endsWith s ".css" = false.
Proof. suffix_clash. Qed.

Lemma endsWith_woff2_not_js :
  forall s, endsWith s ".woff2" = true -> endsWith s ".js" = false.
Proof. suffix_clash. Qed.

Lemma fetch_route_CacheFirst_inv (h : Host) (request : Request) :
  fetch_route h request = Some CacheFirst ->
  endsWith (url request) ".css" = true
  \/ endsWith (url request) ".js" = true
  \/ endsWith (url request) ".woff" = true
  \/ endsWith (url request) ".woff2" = true.
Proof.
  unfold fetch_route.
  destruct (negb (String.eqb (method request) "GET")); [discriminate |].
  destruct (accepts_html request); [discriminate |].
  destruct (matches_extension (url request) ["css"; "js"; "woff"; "woff2"])
    eqn:Hext.
  - intros _. unfold matches_extension in Hext. cbn [existsb] in Hext.
    change ("." ++ "css")%string with ".css" in Hext.
    change ("." ++ "js")%string with ".js" in Hext.
    change ("." ++ "woff")%string with ".woff" in Hext.
    change ("." ++ "woff2")%string with ".woff2" in Hext.
    rewrite !orb_true_iff in Hext. intuition discriminate.
  - destruct (matches_extension (url request)
                ["png"; "jpg"; "jpeg"; "gif"; "svg"; "webp"]); [discriminate |].
    destruct (includes (hostname_of h (url request)) "firestore.googleapis.com"
              || includes (hostname_of h (url request))
                          "firebasestorage.googleapis.com"); discriminate.
Qed.

(** X9. Among the requests the listener routes to Cache-First, only fonts
    can fail: the strategy rejects exactly when the fetch fails, no store
    holds the request and the URL ends in [.woff] or [.woff2]. *)
Theorem cacheFirst_routed_rejects_iff (h : Host) (request : Request) (w : World) :
  fetch_route h request = Some CacheFirst ->
  ((exists e, fst (cacheFirst h request w) = Rejected e)
   <-> network h request = None
       /\ caches_match (url request) (caches w) = None
       /\ (endsWith (url request) ".woff" = true
           \/ endsWith (url request) ".woff2" = true)).
Proof.
  intros Hroute. apply fetch_route_CacheFirst_inv in Hroute.
  destruct (caches_match (url request) (caches w)) as [r |] eqn:Hm.
  { rewrite (cacheFirst_hit h request w r Hm). cbn [fst].
    split; [intros [e He]; discriminate He | intros [_ [Hn _]]; discriminate Hn]. }
  destruct (network h request) as [r |] eqn:Hnet.
  { rewrite (cacheFirst_online_run h request w r Hm Hnet). cbn [fst].
    split; [intros [e He]; discriminate He | intros [Hn _]; discriminate Hn]. }
  rewrite (cacheFirst_miss_offline h request w Hm Hnet). cbn [fst].
  split.
  - intros [e He]. repeat split.
    destruct (endsWith (url request) ".css"); [discriminate He |].
    destruct (endsWith (url request) ".js"); [discriminate He |].
    intuition discriminate.
  - intros [_ [_ [Hf | Hf]]].
    + rewrite (endsWith_woff_not_css _ Hf), (endsWith_woff_not_js _ Hf).
      now exists NetworkError.
    + rewrite (endsWith_woff2_not_css _ Hf), (endsWith_woff2_not_js _ Hf).
      now exists NetworkError.
Qed.

Lemma cacheFirst_routed_rejects_iff_witness :
  (exists e, fst (cacheFirst host_offline font_request empty_world) = Rejected e)
  <-> network host_offline font_request = None
      /\ caches_match (url font_request) (caches empty_world) = None
      /\ (endsWith (url font_request) ".woff" = true
          \/ endsWith (url font_request) ".woff2" = true).
Proof.
  apply (cacheFirst_routed_rejects_iff host_offline font_request empty_world).
  reflexivity.
Defined.

(** ** Image-Cache-First never rejects *)

Lemma imageCacheFirst_hit (h : Host) (request : Request) (w : World) (r : Response) :
  caches_match (url request) (caches w) = Some r ->
  imageCacheFirst h request w = (Fulfilled (Some r), w).
Proof.
  intros Hhit. unfold imageCacheFirst, bind, caches_match_t.
  rewrite Hhit. reflexivity.
Qed.

Lemma imageCacheFirst_online (h : Host) (request : Request) (w : World) (r : Response) :
  caches_match (url request) (caches w) = None ->
  network h request = Some r ->
  exists w', imageCacheFirst h request w = (Fulfilled (Some r), w').
Proof.
  intros Hmiss Hnet.
  unfold imageCacheFirst, bind at 1, caches_match_t. rewrite Hmiss.
  unfold try_catch, bind, fetch. rewrite Hnet.
  destruct (ok r); eexists; reflexivity.
Qed.

(** X10. Image-Cache-First never rejects, and it leaves the page without a
    response in one case only: the fetch fails, no store holds the request,
    the URL contains [placeholder] or [postimg.cc], and no store holds
    [logo.png]. *)
Theorem imageCacheFirst_never_rejects (h : Host) (request : Request) (w : World) :
  exists o w',
    imageCacheFirst h request w = (Fulfilled o, w')
    /\ (o = None
        <-> network h request = None
            /\ caches_match (url request) (caches w) = None
            /\ (includes (url request) "placeholder" = true
                \/ includes (url request) "postimg.cc" = true)
            /\ caches_match (resolve h "logo.png") (caches w) = None).
Proof.
  destruct (caches_match (url request) (caches w)) as [r |] eqn:Hm.
  { exists (Some r), w. split; [now apply imageCacheFirst_hit |].
    split; [discriminate | intros [_ [Hn _]]; discriminate Hn]. }
  destruct (network h request) as [r |] eqn:Hnet.
  { destruct (imageCacheFirst_online h request w r Hm Hnet) as [w' Hrun].
    exists (Some r), w'. split; [exact Hrun |].
    split; [discriminate | intros [Hn _]; discriminate Hn]. }
  rewrite (imageCacheFirst_miss_offline h request w Hm Hnet).
  eexists; eexists. split; [reflexivity |].
  destruct (includes (url request) "placeholder");
    destruct (includes (url request) "postimg.cc"); cbn [orb];
    split; try discriminate; intuition discriminate.
Qed.

(** * Store deletion, messages and lifecycle *)

Lemma filter_filter {A : Type} (f g : A -> bool) (l : list A) :
  filter f (filter g l) = filter (fun x => g x && f x) l.
Proof.
  induction l as [| x l IH]; [reflexivity |].
  cbn [filter]. destruct (g x); cbn [filter andb]; [| exact IH].
  destruct (f x); now rewrite IH.
Qed.

Lemma sweep_by_filter (doomed : string -> bool) (names : list string)
      (cs : CacheStorage) :
  sweep_by doomed names cs
  = filter (fun e => negb (doomed (fst e)
                           && existsb (String.eqb (fst e)) names)) cs.
Proof.
  revert cs. induction names as [| n names IH]; intros cs.
  - cbn [sweep_by fold_left existsb].
    rewrite (filter_ext _ (fun _ => true)); [now rewrite filter_true |].
    intros e. now rewrite andb_false_r.
  - change (sweep_by doomed (n :: names) cs)
      with (sweep_by doomed names
              (if doomed n then caches_delete n cs else cs)).
    rewrite IH. destruct (doomed n) eqn:Hn.
    + unfold caches_delete. rewrite filter_filter. apply filter_ext.
      intros e. cbn [existsb].
      destruct (String.eqb_spec (fst e) n) as [E | _]; cbn [negb andb orb].
      * now rewrite E, Hn.
      * reflexivity.
    + apply filter_ext. intros e. cbn [existsb].
      destruct (String.eqb_spec (fst e) n) as [E | _]; cbn [orb].
      * now rewrite E, Hn.
      * reflexivity.
Qed.

(** Offered every name of the storage, the deletions leave exactly the
    stores that are not doomed, in their order. *)
Lemma sweep_by_keys (doomed : string -> bool) (cs : CacheStorage) :
  sweep_by doomed (caches_keys cs) cs
  = filter (fun e => negb (doomed (fst e))) cs.
Proof.
  rewrite sweep_by_filter. apply filter_ext_in. intros e He.
  assert (E : existsb (String.eqb (fst e)) (caches_keys cs) = true).
  { apply existsb_exists. exists (fst e). split.
    - unfold caches_keys. now apply in_map.
    - apply String.eqb_refl. }
  now rewrite E, andb_true_r.
Qed.

Lemma for_each_sweep_by (doomed : string -> bool) (names : list string)
      (w : World) :
  exists w',
    for_each (fun n => if doomed n then caches_delete_t n else ret tt) names w
    = (Fulfilled tt, w')
    /\ caches w' = sweep_by doomed names (caches w)
    /\ fetch_log w' = fetch_log w
    /\ skip_waiting w' = skip_waiting w
    /\ claimed w' = claimed w
    /\ posted w' = posted w
    /\ shown w' = shown w.
Proof.
  revert w. induction names as [| n names IH]; intros w.
  - exists w. repeat split.
  - cbn [for_each]. unfold bind at 1.
    change (sweep_by doomed (n :: names) (caches w))
      with (sweep_by doomed names
              (if doomed n then caches_delete n (caches w) else caches w)).
    destruct (doomed n).
    + unfold caches_delete_t.
      destruct (IH (set_caches (caches_delete n) w)) as [w' Hw']. now exists w'.
    + unfold ret at 1. exact (IH w).
Qed.

Lemma for_each_delete_all (names : list string) (w : World) :
  exists w',
    for_each caches_delete_t names w = (Fulfilled tt, w')
    /\ caches w' = sweep_by (fun _ => true) names (caches w)
    /\ fetch_log w' = fetch_log w
    /\ skip_waiting w' = skip_waiting w
    /\ claimed w' = claimed w
    /\ posted w' = posted w
    /\ shown w' = shown w.
Proof. exact (for_each_sweep_by (fun _ => true) names w). Qed.

(** ** Control channel *)

Lemma on_message_run (message action : JsVal) (w : World) :
  get_prop message "action" = inr action ->
  on_message message w
  = ((if strict_eq_str action "skipWaiting" then skipWaiting else ret tt) ;;
     (if strict_eq_str action "CLEAR_CACHE" then
        cacheNames <- caches_keys_t ;;
        for_each caches_delete_t cacheNames
      else ret tt) ;;
     (if strict_eq_str action "versionCheck" then postMessage version_response
      else ret tt)) w.
Proof.
  intros Ha. unfold on_message. rewrite Ha. reflexivity.
Qed.

(** X11. A [CLEAR_CACHE] message deletes every store, the current static
    store and the dynamic store included: the storage is empty afterwards,
    and nothing else about the worker changes. *)
Theorem clear_cache_empties_storage (message : JsVal) (w : World) :
  get_prop message "action" = inr (JStr "CLEAR_CACHE") ->
  exists w',
    on_message message w = (Fulfilled tt, w')
    /\ caches w' = []
    /\ (forall key, caches_match key (caches w') = None)
    /\ skip_waiting w' = skip_waiting w
    /\ posted w' = posted w
    /\ fetch_log w' = fetch_log w.
Proof.
  intros Haction.
  destruct (for_each_delete_all (caches_keys (caches w)) w)
    as [w' [Hrun [Hc [Hl [Hs [_ [Hp _]]]]]]].
  exists w'.
  assert (Hempty : caches w' = []).
  { rewrite Hc, sweep_by_keys. cbn [negb]. apply filter_false. }
  split.
  { rewrite (on_message_run message _ w Haction).
    change (strict_eq_str (JStr "CLEAR_CACHE") "skipWaiting") with false.
    change (strict_eq_str (JStr "CLEAR_CACHE") "CLEAR_CACHE") with true.
    change (strict_eq_str (JStr "CLEAR_CACHE") "versionCheck") with false.
    cbv beta iota. unfold bind, caches_keys_t, ret.
    rewrite Hrun. reflexivity. }
  split; [exact Hempty |].
  split; [intros key; now rewrite Hempty |].
  auto.
Qed.

Lemma clear_cache_empties_storage_witness :
  exists w',
    on_message clear_cache_message world_with_style = (Fulfilled tt, w')
    /\ caches w' = []
    /\ (forall key, caches_match key (caches w') = None)
    /\ skip_waiting w' = skip_waiting world_with_style
    /\ posted w' = posted world_with_style
    /\ fetch_log w' = fetch_log world_with_style.
Proof.
  apply (clear_cache_empties_storage clear_cache_message world_with_style).
  reflexivity.
Defined.

(** X12. The message listener throws exactly for a message whose data is
    [null] or [undefined] (it reads [message.action] unguarded); for every
    other message it fulfils. *)
Theorem on_message_throws_iff (message : JsVal) (w : World) :
  (fst (on_message message w) = Rejected TypeError
   <-> message = JNull \/ message = JUndefined)
  /\ (fst (on_message message w) = Fulfilled tt
      <-> message <> JNull /\ message <> JUndefined).
Proof.
  destruct (get_prop message "action") as [e | a] eqn:Ha.
  - assert (Hm : message = JNull \/ message = JUndefined).
    { destruct message; cbn [get_prop] in Ha; auto; try discriminate Ha.
      destruct (assoc "action" (rev fields)); discriminate Ha. }
    assert (Hrun : fst (on_message message w) = Rejected TypeError).
    { destruct Hm as [-> | ->]; reflexivity. }
    rewrite Hrun. split; split; auto; try discriminate.
    intros [Hn Hu]. destruct Hm; contradiction.
  - assert (Hm : message <> JNull /\ message <> JUndefined).
    { split; intros ->; discriminate Ha. }
    assert (Hrun : fst (on_message message w) = Fulfilled tt).
    { rewrite (on_message_run message a w Ha). unfold bind.
      destruct (strict_eq_str a "skipWaiting"); unfold skipWaiting, ret at 1;
        (destruct (strict_eq_str a "CLEAR_CACHE");
         [ unfold caches_keys_t;
           match goal with
           | |- context [for_each caches_delete_t ?ns ?w0] =>
               destruct (for_each_delete_all ns w0) as [w1 [Hr _]];
               rewrite Hr
           end
         | unfold ret at 1 ];
         destruct (strict_eq_str a "versionCheck"); reflexivity). }
    rewrite Hrun. split; split; auto; try discriminate.
    intros [-> | ->]; destruct Hm; contradiction.
Qed.

(** X13. A message whose action is none of [skipWaiting], [CLEAR_CACHE]
    and [versionCheck] is ignored: the listener fulfils and the world is
    the one before. *)
Theorem unrecognised_message_ignored (message action : JsVal) (w : World) :
  get_prop message "action" = inr action ->
  action <> JStr "skipWaiting" ->
  action <> JStr "CLEAR_CACHE" ->
  action <> JStr "versionCheck" ->
  on_message message w = (Fulfilled tt, w).
Proof.
  intros Ha H1 H2 H3.
  assert (Hne : forall lit, action <> JStr lit -> strict_eq_str action lit = false).
  { intros lit Hl. destruct action; try reflexivity. cbn [strict_eq_str].
    apply String.eqb_neq. congruence. }
  rewrite (on_message_run message action w Ha).
  rewrite (Hne _ H1), (Hne _ H2), (Hne _ H3). reflexivity.
Qed.

Lemma unrecognised_message_ignored_witness :
  on_message (JObj [("action", JStr "version-query")]) world_with_style
  = (Fulfilled tt, world_with_style).
Proof.
  apply (unrecognised_message_ignored (JObj [("action", JStr "version-query")])
           (JStr "version-query") world_with_style);
    [reflexivity | discriminate | discriminate | discriminate].
Defined.

(** ** Activation, exactly *)

Lemma on_activate_run (w : World) :
  exists w',
    on_activate w = (Fulfilled tt, w')
    /\ caches w' = filter (fun e => negb (stale (fst e))) (caches w)
    /\ fetch_log w' = fetch_log w
    /\ skip_waiting w' = skip_waiting w
    /\ claimed w' = true.
Proof.
  destruct (for_each_sweep_by stale (caches_keys (caches w)) w)
    as [w1 [Hrun [Hc [Hl [Hs _]]]]].
  exists (set_claimed w1). split.
  - unfold on_activate, bind, caches_keys_t.
    change (for_each _ (caches_keys (caches w)) w)
      with (for_each (fun n => if stale n then caches_delete_t n else ret tt)
                     (caches_keys (caches w)) w).
    rewrite Hrun. reflexivity.
  - cbn [set_claimed caches fetch_log skip_waiting claimed].
    rewrite Hc, sweep_by_keys. auto.
Qed.

(** X14. Activation keeps exactly the stores named [CACHE_NAME] or
    [DYNAMIC_CACHE], in their order and with their contents, fetches
    nothing, and is idempotent: activating again changes no store. *)
Theorem on_activate_is_idempotent (w : World) :
  caches (snd (on_activate w))
  = filter (fun e => String.eqb (fst e) CACHE_NAME
                     || String.eqb (fst e) DYNAMIC_CACHE) (caches w)
  /\ caches (snd (on_activate (snd (on_activate w))))
     = caches (snd (on_activate w))
  /\ fetch_log (snd (on_activate w)) = fetch_log w.
Proof.
  assert (Hkeep : forall e : string * Cache,
             negb (stale (fst e))
             = String.eqb (fst e) CACHE_NAME || String.eqb (fst e) DYNAMIC_CACHE).
  { intros e. unfold stale.
    destruct (String.eqb (fst e) CACHE_NAME);
      destruct (String.eqb (fst e) DYNAMIC_CACHE); reflexivity. }
  destruct (on_activate_run w) as [w1 [Hrun1 [Hc1 [Hl1 _]]]].
  destruct (on_activate_run w1) as [w2 [Hrun2 [Hc2 _]]].
  rewrite Hrun1. cbn [snd]. rewrite Hrun2. cbn [snd].
  split; [| split].
  - rewrite Hc1. apply filter_ext. exact Hkeep.
  - rewrite Hc2, Hc1, filter_filter. apply filter_ext.
    intros e. now destruct (negb (stale (fst e))).
  - exact Hl1.
Qed.

(** X15. The first revision's activation keeps only the store called
    [shopeasy-v3]: every other store, whatever its name, is deleted. *)
Theorem V3_activate_keeps_only_own_store (w : World) :
  fst (V3.on_activate w) = Fulfilled tt
  /\ caches (snd (V3.on_activate w))
     = filter (fun e => String.eqb (fst e) V3.CACHE_NAME) (caches w)
  /\ forall name, In name (caches_keys (caches (snd (V3.on_activate w)))) ->
                  name = V3.CACHE_NAME.
Proof.
  destruct (for_each_sweep_by (fun n => negb (String.eqb n V3.CACHE_NAME))
              (caches_keys (caches w)) w) as [w1 [Hrun [Hc _]]].
  assert (E : V3.on_activate w = (Fulfilled tt, set_claimed w1)).
  { unfold V3.on_activate, bind, caches_keys_t. rewrite Hrun. reflexivity. }
  assert (Hcs : caches (set_claimed w1)
                = filter (fun e => String.eqb (fst e) V3.CACHE_NAME) (caches w)).
  { cbn [set_claimed caches]. rewrite Hc, sweep_by_keys.
    apply filter_ext. intros e. apply negb_involutive. }
  rewrite E. cbn [fst snd]. split; [reflexivity |]. split; [exact Hcs |].
  intros name Hin. rewrite Hcs in Hin. unfold caches_keys in Hin.
  apply in_map_iff in Hin. destruct Hin as [e [<- He]].
  apply filter_In in He. destruct He as [_ He]. now apply String.eqb_eq.
Qed.

(** ** Installing again *)

Lemma NoDup_snoc {A : Type} (l : list A) (x : A) :
  NoDup l -> ~ In x l -> NoDup (l ++ [x]).
Proof.
  intros Hl Hx. apply NoDup_app; [exact Hl | repeat constructor; intros [] |].
  intros a Ha [<- | []]. contradiction.
Qed.

Lemma put_all_rotate (todo done : list (string * Response)) :
  NoDup (map fst (map (fun e => (cache_key (fst e), snd e)) todo ++ done)) ->
  put_all todo (map (fun e => (cache_key (fst e), snd e)) todo ++ done)
  = done ++ map (fun e => (cache_key (fst e), snd e)) todo.
Proof.
  revert done. induction todo as [| [k r] todo IH]; intros done Hnd.
  - cbn. now rewrite app_nil_r.
  - cbn [map fst snd app] in *.
    change (put_all ((k, r) :: todo) ?c) with (put_all todo (Cache_put k r c)).
    inversion Hnd as [| ? ? Hk Hnd']; subst.
    set (stored := map (fun e => (cache_key (fst e), snd e)) todo) in *.
    assert (E : Cache_put k r ((cache_key k, r) :: stored ++ done)
                = stored ++ (done ++ [(cache_key k, r)])).
    { unfold Cache_put, Cache_remove. cbn [filter fst].
      rewrite String.eqb_refl. cbn [negb].
      fold (Cache_remove k (stored ++ done)).
      rewrite (Cache_remove_absent k (stored ++ done) Hk).
      now rewrite app_assoc. }
    rewrite E, IH.
    + now rewrite <- app_assoc.
    + fold stored. rewrite app_assoc, map_app. cbn [map fst].
      now apply NoDup_snoc.
Qed.

(** X16. Installing twice is installing once: after a successful install
    into an empty storage, a second install against the same network leaves
    the storage as the first one did, a single static store holding the
    manifest's URLs (as cache keys) in manifest order, each once. *)
Theorem install_twice_same_store (h : Host) (w : World) :
  caches w = [] ->
  NoDup (manifest_keys h STATIC_ASSETS) ->
  Forall (asset_available h) STATIC_ASSETS ->
  caches (snd (on_install h (snd (on_install h w))))
  = caches (snd (on_install h w))
  /\ exists es,
       caches (snd (on_install h w)) = [(CACHE_NAME, es)]
       /\ map fst es = manifest_keys h STATIC_ASSETS.
Proof.
  intros Hempty Hnd Hav.
  destruct (fetch_all_available h STATIC_ASSETS Hav) as [es [Hes [Hkeys _]]].
  pose proof (entry_keys_of_manifest h STATIC_ASSETS es Hkeys) as Hk'.
  assert (Hnd' : NoDup (entry_keys es)) by now rewrite Hk'.
  assert (Hdup : has_duplicates (entry_keys es) = false)
    by now apply has_duplicates_false_iff.
  set (stored := map (fun e => (cache_key (fst e), snd e)) es).
  assert (Hstored : map fst stored = entry_keys es).
  { subst stored. unfold entry_keys. now rewrite map_map. }
  assert (Hrun : forall w0, on_install h w0
            = (Fulfilled tt,
               set_skip_waiting
                 (set_caches (update_store CACHE_NAME (put_all es))
                    (log_fetches (map (resolve h) STATIC_ASSETS)
                       (set_caches (caches_open CACHE_NAME) w0))))).
  { intros w0. unfold on_install, try_catch.
    now rewrite (install_steps_success h CACHE_NAME STATIC_ASSETS w0 es Hes Hdup). }
  assert (Hfirst : caches (snd (on_install h w)) = [(CACHE_NAME, stored)]).
  { rewrite Hrun. cbn [snd caches set_skip_waiting set_caches log_fetches].
    rewrite Hempty.
    change (caches_open CACHE_NAME [])
      with [(CACHE_NAME, @nil (string * Response))].
    cbn [update_store]. rewrite String.eqb_refl.
    rewrite (put_all_append es [] Hnd'); [reflexivity | intros k _ []]. }
  split; [| exists stored; split; [exact Hfirst | now rewrite Hstored]].
  rewrite Hfirst. rewrite (Hrun (snd (on_install h w))).
  cbn [snd caches set_skip_waiting set_caches log_fetches]. rewrite Hfirst.
  assert (Hopen : caches_open CACHE_NAME [(CACHE_NAME, stored)]
                  = [(CACHE_NAME, stored)]).
  { unfold caches_open, caches_has, caches_keys. cbn [map fst existsb].
    now rewrite String.eqb_refl. }
  rewrite Hopen. cbn [update_store]. rewrite String.eqb_refl.
  pose proof (put_all_rotate es []) as Hrot. rewrite !app_nil_r in Hrot.
  fold stored in Hrot. cbn [app] in Hrot.
  rewrite Hrot; [reflexivity | now rewrite Hstored].
Qed.

Lemma install_twice_same_store_witness :
  caches (snd (on_install host_online (snd (on_install host_online empty_world))))
  = caches (snd (on_install host_online empty_world))
  /\ exists es,
       caches (snd (on_install host_online empty_world)) = [(CACHE_NAME, es)]
       /\ map fst es = manifest_keys host_online STATIC_ASSETS.
Proof.
  apply (install_twice_same_store host_online empty_world).
  - reflexivity.
  - apply has_duplicates_false_iff. vm_compute. reflexivity.
  - repeat constructor; exists page_response;
      (split; [reflexivity | split; [reflexivity | cbn; lia]]).
Defined.

(** * The listeners of [src/sw.js] *)

Lemma SwJs_html_branch_run (h : Host) (request : Request) (w : World) :
  exists w',
    SwJsListeners.html_branch h request w
    = (Fulfilled
         (match network h request with
          | Some r => Some r
          | None =>
              match caches_match (url request) (caches w) with
              | Some r => Some r
              | None => caches_match (resolve h "/") (caches w)
              end
          end), w').
Proof.
  unfold SwJsListeners.html_branch, try_catch, bind, fetch,
    caches_open_t, cache_put_t, caches_match_t, ret.
  destruct (network h request) as [r |].
  - eexists; reflexivity.
  - cbn [caches log_fetches].
    destruct (caches_match (url request) (caches w)); eexists; reflexivity.
Qed.

Lemma SwJs_asset_branch_run (h : Host) (request : Request) (w : World) :
  exists w',
    SwJsListeners.asset_branch h request w
    = (Fulfilled
         (match caches_match (url request) (caches w) with
          | Some r => Some r
          | None =>
              match network h request with
              | Some r => Some r
              | None =>
                  if matches_extension (url request)
                       ["png"; "jpg"; "jpeg"; "gif"]
                  then caches_match (resolve h "logo.png") (caches w)
                  else None
              end
          end), w').
Proof.
  unfold SwJsListeners.asset_branch, bind at 1, caches_match_t.
  destruct (caches_match (url request) (caches w)).
  - eexists; reflexivity.
  - unfold try_catch, bind, fetch, caches_open_t, cache_put_t,
      caches_match_t, ret.
    destruct (network h request) as [r |].
    + destruct (negb (status r =? 200)%nat || negb (is_basic (rtype r)));
        eexists; reflexivity.
    + destruct (matches_extension (url request) ["png"; "jpg"; "jpeg"; "gif"]);
        eexists; reflexivity.
Qed.

Lemma SwJs_firebase_branch_run (h : Host) (request : Request) (w : World) :
  exists w',
    SwJsListeners.firebase_branch h request w
    = (Fulfilled
         (match caches_match (url request) (caches w) with
          | Some r => Some r
          | None => network h request
          end), w').
Proof.
  unfold SwJsListeners.firebase_branch, try_catch, bind, fetch,
    caches_open_t, cache_put_t, caches_match_t, ret.
  destruct (network h request) as [r |]; eexists; reflexivity.
Qed.

Lemma SwJs_image_extension_is_asset (s : string) :
  matches_extension s ["png"; "jpg"; "jpeg"; "gif"] = true ->
  matches_extension s ["css"; "js"; "png"; "jpg"; "jpeg"; "gif"; "svg"] = true.
Proof.
  unfold matches_extension. cbn [existsb].
  rewrite !orb_true_iff. tauto.
Qed.

(** X17. The fetch listener of [src/sw.js] never rejects the promise it
    gives to [respondWith], but it can resolve it with no response, which
    fails the request all the same.  That happens exactly when the fetch
    fails, no store holds the request, and the branch has nothing to fall
    back on: for an HTML request no store holds the root document; for a
    [.png], [.jpg], [.jpeg] or [.gif] URL no store holds [logo.png]; for
    every other intercepted request there is no fallback at all. *)
Theorem SwJs_fetch_no_response_iff
        (h : Host) (origin : string) (request : Request)
        (t : Task (option Response)) (w : World) :
  SwJsListeners.on_fetch h origin request = Some t ->
  exists o w',
    t w = (Fulfilled o, w')
    /\ (o = None
        <-> network h request = None
            /\ caches_match (url request) (caches w) = None
            /\ (if accepts_html request
                then caches_match (resolve h "/") (caches w) = None
                else if matches_extension (url request)
                          ["png"; "jpg"; "jpeg"; "gif"]
                then caches_match (resolve h "logo.png") (caches w) = None
                else True)).
Proof.
  unfold SwJsListeners.on_fetch.
  destruct (negb (startsWith (url request) origin)
            || negb (String.eqb (method request) "GET")); [discriminate |].
  destruct (accepts_html request).
  { intros E. inversion E; subst.
    destruct (SwJs_html_branch_run h request w) as [w' Hrun].
    eexists; exists w'. split; [exact Hrun |].
    destruct (network h request);
      [| destruct (caches_match (url request) (caches w)) ];
      split; try discriminate; intuition discriminate. }
  destruct (matches_extension (url request)
              ["css"; "js"; "png"; "jpg"; "jpeg"; "gif"; "svg"]) eqn:Hasset.
  { intros E. inversion E; subst.
    destruct (SwJs_asset_branch_run h request w) as [w' Hrun].
    eexists; exists w'. split; [exact Hrun |].
    destruct (caches_match (url request) (caches w));
      [| destruct (network h request);
         [| destruct (matches_extension (url request)
                        ["png"; "jpg"; "jpeg"; "gif"]) ] ];
      split; try discriminate; intuition discriminate. }
  destruct (includes (hostname_of h (url request)) "firestore.googleapis.com"
            || includes (hostname_of h (url request))
                        "firebasestorage.googleapis.com"); [| discriminate].
  intros E. inversion E; subst.
  destruct (SwJs_firebase_branch_run h request w) as [w' Hrun].
  eexists; exists w'. split; [exact Hrun |].
  assert (Himg : matches_extension (url request) ["png"; "jpg"; "jpeg"; "gif"]
                 = false).
  { destruct (matches_extension (url request) ["png"; "jpg"; "jpeg"; "gif"])
      eqn:Hi; [| reflexivity].
    apply SwJs_image_extension_is_asset in Hi. congruence. }
  rewrite Himg.
  destruct (caches_match (url request) (caches w));
    [| destruct (network h request) ];
    split; try discriminate; intuition discriminate.
Qed.

Lemma SwJs_fetch_no_response_iff_witness :
  exists o w',
    SwJsListeners.asset_branch host_offline (get style_url None) empty_world
    = (Fulfilled o, w')
    /\ (o = None
        <-> network host_offline (get style_url None) = None
            /\ caches_match (url (get style_url None)) (caches empty_world) = None
            /\ (if accepts_html (get style_url None)
                then caches_match (resolve host_offline "/") (caches empty_world)
                     = None
                else if matches_extension (url (get style_url None))
                          ["png"; "jpg"; "jpeg"; "gif"]
                then caches_match (resolve host_offline "logo.png")
                                  (caches empty_world) = None
                else True)).
Proof.
  apply (SwJs_fetch_no_response_iff host_offline shop_origin
           (get style_url None)
           (SwJsListeners.asset_branch host_offline (get style_url None))
           empty_world).
  reflexivity.
Defined.

Lemma truthy_get_prop (data : JsVal) (name : string) :
  truthy data = true -> exists x, get_prop data name = inr x.
Proof.
  intros Ht. apply get_prop_total; intros ->; discriminate Ht.
Qed.

Lemma SwJs_data_action_is_fulfils (data : JsVal) (lit : string) (w : World) :
  exists b, SwJsListeners.data_action_is data lit w = (Fulfilled b, w).
Proof.
  unfold SwJsListeners.data_action_is.
  destruct (truthy data) eqn:Ht.
  - destruct (truthy_get_prop data "action" Ht) as [x Hx].
    unfold bind, lift. rewrite Hx. eexists; reflexivity.
  - eexists; reflexivity.
Qed.

(** X18. The message listener of [src/sw.js] guards its reads with
    [event.data &&], so it never throws, whatever the message; a message
    without data ([null], [undefined] or any other falsy value) leaves the
    world as it was. *)
Theorem SwJs_on_message_never_throws (data : JsVal) (w : World) :
  (exists w', SwJsListeners.on_message data w = (Fulfilled tt, w'))
  /\ (truthy data = false ->
      SwJsListeners.on_message data w = (Fulfilled tt, w)).
Proof.
  split.
  - unfold SwJsListeners.on_message. unfold bind at 1.
    destruct (SwJs_data_action_is_fulfils data "CLEAR_CACHE" w) as [b1 ->].
    unfold bind at 1.
    destruct b1.
    + unfold bind at 1, caches_keys_t.
      destruct (for_each_delete_all (caches_keys (caches w)) w) as [w1 [-> _]].
      unfold bind at 1.
      destruct (SwJs_data_action_is_fulfils data "skipWaiting" w1) as [b2 ->].
      destruct b2; eexists; reflexivity.
    + unfold ret at 1. unfold bind at 1.
      destruct (SwJs_data_action_is_fulfils data "skipWaiting" w) as [b2 ->].
      destruct b2; eexists; reflexivity.
  - intros Hf. unfold SwJsListeners.on_message, SwJsListeners.data_action_is.
    rewrite Hf. reflexivity.
Qed.

(** * The first revision's fetch listener *)

Lemma V3_hit (h : Host) (request : Request) (w : World) (r : Response) :
  caches_match (url request) (caches w) = Some r ->
  V3.cache_then_network h request w = (Fulfilled (Some r), w).
Proof.
  intros Hhit. unfold V3.cache_then_network, bind, caches_match_t.
  rewrite Hhit. reflexivity.
Qed.

Lemma V3_online (h : Host) (request : Request) (w : World) (r : Response) :
  caches_match (url request) (caches w) = None ->
  network h request = Some r ->
  V3.cache_then_network h request w
  = (Fulfilled (Some r),
     if negb (status r =? 200)%nat || negb (is_basic (rtype r))
     then log_fetches [url request] w
     else set_caches (update_store V3.CACHE_NAME (Cache_put (url request) r))
            (set_caches (caches_open V3.CACHE_NAME)
               (log_fetches [url request] w))).
Proof.
  intros Hmiss Hnet.
  unfold V3.cache_then_network, bind at 1, caches_match_t. rewrite Hmiss.
  unfold try_catch, bind, fetch, caches_open_t, cache_put_t, ret.
  rewrite Hnet.
  destruct (status r =? 200)%nat eqn:Hs; cbn [negb orb]; [| reflexivity].
  destruct (is_basic (rtype r)); cbn [negb]; [| reflexivity].
  unfold put_refused.
  apply Nat.eqb_eq in Hs. rewrite Hs. reflexivity.
Qed.

Lemma V3_offline (h : Host) (request : Request) (w : World) :
  caches_match (url request) (caches w) = None ->
  network h request = None ->
  V3.cache_then_network h request w
  = (match accept request with
     | None => Rejected TypeError
     | Some a =>
         if includes a "text/html"
         then Fulfilled (caches_match (resolve h "./") (caches w))
         else Fulfilled None
     end, log_fetches [url request] w).
Proof.
  intros Hmiss Hnet.
  unfold V3.cache_then_network, bind at 1, caches_match_t. rewrite Hmiss.
  unfold try_catch, bind, fetch, lift, caches_match_t, ret, throw.
  rewrite Hnet.
  destruct (accept request) as [a |]; [| reflexivity].
  destruct (includes a "text/html"); reflexivity.
Qed.

(** X19. The first revision's cache-then-network response fails in one
    case only: the fetch fails, no store holds the request, and the
    request carries no Accept header, which the fallback reads unguarded.
    The failure is then a TypeError, not the network error. *)
Theorem V3_fetch_rejects_iff (h : Host) (request : Request) (w : World) :
  (exists e, fst (V3.cache_then_network h request w) = Rejected e)
  <-> network h request = None
      /\ caches_match (url request) (caches w) = None
      /\ accept request = None
      /\ fst (V3.cache_then_network h request w) = Rejected TypeError.
Proof.
  destruct (caches_match (url request) (caches w)) as [r |] eqn:Hm.
  { rewrite (V3_hit h request w r Hm). cbn [fst].
    split; [intros [e He]; discriminate He | intros [_ [Hn _]]; discriminate Hn]. }
  destruct (network h request) as [r |] eqn:Hnet.
  { rewrite (V3_online h request w r Hm Hnet). cbn [fst].
    split; [intros [e He]; discriminate He | intros [Hn _]; discriminate Hn]. }
  rewrite (V3_offline h request w Hm Hnet). cbn [fst].
  destruct (accept request) as [a |].
  - destruct (includes a "text/html");
      (split; [intros [e He]; discriminate He
              | intros [_ [_ [Ha _]]]; discriminate Ha]).
  - split; [intros _; auto | intros _; now exists TypeError].
Qed.

(** X20. The first revision stores only plain successes: its response
    changes the cache storage only when no store held the request and the
    network answered with status 200 and type [basic]; in that case the
    answer is what the storage gives for the request afterwards. *)
Theorem V3_stores_only_basic_200 (h : Host) (request : Request) (w : World) :
  caches (snd (V3.cache_then_network h request w)) = caches w
  \/ exists r,
       caches_match (url request) (caches w) = None
       /\ network h request = Some r
       /\ status r = 200
       /\ rtype r = Basic
       /\ caches_match (url request)
            (caches (snd (V3.cache_then_network h request w))) = Some r.
Proof.
  destruct (caches_match (url request) (caches w)) as [r |] eqn:Hm.
  { left. now rewrite (V3_hit h request w r Hm). }
  destruct (network h request) as [r |] eqn:Hnet.
  2: { left. now rewrite (V3_offline h request w Hm Hnet). }
  rewrite (V3_online h request w r Hm Hnet). cbn [snd].
  destruct (status r =? 200)%nat eqn:Hs; cbn [negb orb]; [| now left].
  destruct (rtype r) eqn:Ht; cbn [is_basic negb]; try (now left).
  right. exists r. apply Nat.eqb_eq in Hs.
  repeat split; auto.
  cbn [caches set_caches log_fetches]. now apply caches_match_put_fresh.
Qed.

(** * Notifications *)

Lemma first_matching_client_spec
      (data target : JsVal) (clientList : list string) (k : nat) :
  get_prop data "url" = inr target ->
  first_matching_client data clientList k = inr None
  /\ (forall u, In u clientList -> target <> JStr u)
  \/ exists i,
       first_matching_client data clientList k = inr (Some (k + i))
       /\ option_map JStr (nth_error clientList i) = Some target
       /\ forall j, j < i -> option_map JStr (nth_error clientList j) <> Some target.
Proof.
  intros Hurl. revert k.
  induction clientList as [| c l IH]; intros k.
  - left. split; [reflexivity | intros u []].
  - cbn [first_matching_client]. rewrite Hurl.
    destruct (strict_eq_str target c) eqn:Heq.
    + right. exists 0. rewrite Nat.add_0_r. split; [reflexivity |].
      split; [| intros j Hj; lia].
      destruct target; try discriminate Heq. cbn [strict_eq_str] in Heq.
      apply String.eqb_eq in Heq. now subst.
    + assert (Hne : target <> JStr c).
      { intros ->. cbn [strict_eq_str] in Heq.
        rewrite String.eqb_refl in Heq. discriminate. }
      destruct (IH (S k)) as [[Hnone Hall] | [i [Hsome [Hnth Hfirst]]]].
      * left. split; [exact Hnone |].
        intros u [<- | Hu]; [exact Hne | now apply Hall].
      * right. exists (S i). rewrite Nat.add_succ_r. split; [exact Hsome |].
        split; [exact Hnth |].
        intros [| j] Hj; cbn [nth_error option_map].
        -- congruence.
        -- apply Hfirst. lia.
Qed.

(** X21. A click on a notification whose data carries a URL closes it and
    then either focuses the first open window whose URL is that URL, or,
    when no window has it, opens a new window there; it never does both
    and never fails. *)
Theorem notificationclick_focus_or_open
        (data target : JsVal) (clientList : list string) :
  get_prop data "url" = inr target ->
  (on_notificationclick data clientList
   = ([CloseNotification; OpenWindow target], Fulfilled tt)
   /\ forall u, In u clientList -> target <> JStr u)
  \/ exists i,
       on_notificationclick data clientList
       = ([CloseNotification; FocusClient i], Fulfilled tt)
       /\ option_map JStr (nth_error clientList i) = Some target
       /\ forall j, j < i ->
                    option_map JStr (nth_error clientList j) <> Some target.
Proof.
  intros Hurl. unfold on_notificationclick.
  destruct (first_matching_client_spec data target clientList 0 Hurl)
    as [[Hnone Hall] | [i [Hsome Hrest]]].
  - left. rewrite Hnone, Hurl. split; [reflexivity | exact Hall].
  - right. exists i. rewrite Hsome. cbn [Nat.add]. split; [reflexivity | exact Hrest].
Qed.

Lemma notificationclick_focus_or_open_witness :
  (on_notificationclick (JObj [("url", JStr "/deals")]) ["/"; "/deals"; "/deals"]
   = ([CloseNotification; OpenWindow (JStr "/deals")], Fulfilled tt)
   /\ forall u, In u ["/"; "/deals"; "/deals"] -> JStr "/deals" <> JStr u)
  \/ exists i,
       on_notificationclick (JObj [("url", JStr "/deals")])
                            ["/"; "/deals"; "/deals"]
       = ([CloseNotification; FocusClient i], Fulfilled tt)
       /\ option_map JStr (nth_error ["/"; "/deals"; "/deals"] i)
          = Some (JStr "/deals")
       /\ forall j, j < i ->
                    option_map JStr (nth_error ["/"; "/deals"; "/deals"] j)
                    <> Some (JStr "/deals").
Proof.
  apply (notificationclick_focus_or_open (JObj [("url", JStr "/deals")])
           (JStr "/deals") ["/"; "/deals"; "/deals"]).
  reflexivity.
Defined.

(** X22. From push to click: every payload that parses to something other
    than [null] shows one notification whose target is the payload's [url]
    when that is truthy and the root path otherwise, so the target is never
    empty; clicking it never fails, and either focuses a window already at
    the target or opens the target. *)
Theorem pushed_notification_click
        (v : JsVal) (w : World) (clientList : list string) :
  v <> JNull -> v <> JUndefined ->
  exists n u,
    shown (snd (on_push (Some (Parsed v)) w)) = shown w ++ [n]
    /\ get_prop v "url" = inr u
    /\ n_data_url n = (if truthy u then u else JStr "/")
    /\ truthy (n_data_url n) = true
    /\ snd (on_notificationclick (notification_data n) clientList) = Fulfilled tt
    /\ (fst (on_notificationclick (notification_data n) clientList)
        = [CloseNotification; OpenWindow (n_data_url n)]
        \/ exists i,
             fst (on_notificationclick (notification_data n) clientList)
             = [CloseNotification; FocusClient i]
             /\ option_map JStr (nth_error clientList i) = Some (n_data_url n)).
Proof.
  intros Hn Hu.
  destruct (get_prop_total v "title" Hn Hu) as [t Ht].
  destruct (get_prop_total v "body" Hn Hu) as [b Hb].
  destruct (get_prop_total v "url" Hn Hu) as [u Hurl].
  set (n := mkNotification
              (js_or t (JStr "ShopEasy"))
              (js_or b (JStr "New update from ShopEasy"))
              "logo.png" "logo.png" [100; 50; 100] (js_or u (JStr "/"))).
  exists n, u.
  split.
  { unfold on_push, json, bind, ret, lift. rewrite Hb, Hurl, Ht. reflexivity. }
  split; [exact Hurl |].
  split; [reflexivity |].
  split.
  { subst n. cbn [n_data_url]. unfold js_or.
    destruct (truthy u) eqn:Htu; [exact Htu | reflexivity]. }
  assert (Hdata : get_prop (notification_data n) "url" = inr (n_data_url n))
    by reflexivity.
  unfold on_notificationclick.
  destruct (first_matching_client_spec _ _ clientList 0 Hdata)
    as [[Hnone _] | [i [Hsome [Hnth _]]]].
  - rewrite Hnone, Hdata. split; [reflexivity | now left].
  - rewrite Hsome. cbn [Nat.add fst snd]. split; [reflexivity |].
    right. exists i. split; [reflexivity | exact Hnth].
Qed.

Lemma pushed_notification_click_witness :
  exists n u,
    shown (snd (on_push (Some (Parsed sale_payload)) empty_world))
    = shown empty_world ++ [n]
    /\ get_prop sale_payload "url" = inr u
    /\ n_data_url n = (if truthy u then u else JStr "/")
    /\ truthy (n_data_url n) = true
    /\ snd (on_notificationclick (notification_data n)
                                 ["https://shopeasy.example/"]) = Fulfilled tt
    /\ (fst (on_notificationclick (notification_data n)
                                  ["https://shopeasy.example/"])
        = [CloseNotification; OpenWindow (n_data_url n)]
        \/ exists i,
             fst (on_notificationclick (notification_data n)
                                       ["https://shopeasy.example/"])
             = [CloseNotification; FocusClient i]
             /\ option_map JStr (nth_error ["https://shopeasy.example/"] i)
                = Some (n_data_url n)).
Proof.
  apply (pushed_notification_click sale_payload empty_world
           ["https://shopeasy.example/"]); discriminate.
Defined.
